(** * RealtimeService: the session transport of the chat client

    A shallow embedding of [lib/realtime-communication.ts] (class
    [RealtimeService]) and the properties of its connect / disconnect /
    send / reconnect logic.

    The class is a JavaScript object living in a host that owns timers, a
    console and user-supplied listeners.  The embedding has two layers:

    - [RealtimeService]: the private fields of the object;
    - [Runtime]: the object together with the host's timer table and the
      log of every effect the object performed on the host (listener
      calls, [console] output, timer registrations).

    Methods are state transformers on [Runtime].  The ones that can throw
    (a listener may throw, [encryptMessage] may reject) live in the small
    exception monad [Action]; the others are plain functions. *)

From Stdlib Require Import ZArith List String Bool Arith Sorted Lia.
Import ListNotations.
Local Open Scope string_scope.
Local Open Scope list_scope.
Local Open Scope nat_scope.

(* ================================================================== *)
(** ** Data model *)

(** [RealtimeMessage.type] *)
Inductive EnvelopeType : Type :=
| message | typing | presence | delivery_receipt | read_receipt.

(** The [messageType] parameter of [sendMessage]. *)
Inductive MessageType : Type := text | file | image.

(** [PresenceData.status] *)
Inductive PresenceStatus : Type := online | away | busy | offline.

(** The status passed to the [onConnectionStatusChange] listener. *)
Inductive ConnectionStatus : Type := Connected | Disconnected | Reconnecting.

(** The optional [fileData] argument of [sendMessage]. *)
Record FileData : Type := mkFileData {
  fd_url : string;
  fd_name : string;
  fd_size : Z;
  fd_type : string
}.

(** [RealtimeMessage.data] is typed [any]; the class builds four shapes. *)
Inductive Payload : Type :=
| MessageData (messageId content nonce : string) (messageType : MessageType)
              (fileData : option FileData) (timestamp : Z)
| TypingData (isTyping : bool)
| PresencePayload (status : PresenceStatus) (lastSeen : Z) (device : string)
| ReceiptData (messageId : string) (timestamp : Z).

(** [interface RealtimeMessage].  [from] is [this.currentUser!]: the
    non-null assertion is erased at run time, so the field may hold
    [null]. *)
Record RealtimeMessage : Type := mkRealtimeMessage {
  msg_id : string;
  msg_type : EnvelopeType;
  msg_from : option string;
  msg_to : string;
  msg_data : Payload;
  msg_timestamp : Z;
  msg_signature : option string
}.

(** The [Message] handed to [onMessageReceived] by the demo simulator. *)
Record Message : Type := mkMessage {
  m_id : string;
  m_sender : string;
  m_senderUsername : string;
  m_recipient : string;
  m_content : string;
  m_nonce : string;
  m_timestamp : Z;
  m_status : string;
  m_messageType : MessageType
}.

(** socket.io's [Socket], as far as the class looks at it. *)
Record Socket : Type := mkSocket { connected : bool }.

(** A listener is user code.  The class only depends on whether a call
    returns or throws; listeners that call back into the service are
    outside this model. *)
Inductive Completion : Type := Returns | Throws.

(** The four closures the class hands to [setTimeout] / [setInterval]. *)
Inductive Callback : Type :=
| MockConnected      (* constructor: announce 'connected', start heartbeat *)
| SimulateIncoming   (* simulateIncomingMessages *)
| Heartbeat          (* startHeartbeat *)
| Reconnect.         (* scheduleReconnect *)

Record Timer : Type := mkTimer {
  timer_id : nat;
  repeats : bool;        (* true: setInterval, false: setTimeout *)
  delay : Z;             (* milliseconds *)
  callback : Callback
}.

(** Every effect of the object on its host, in program order. *)
Inductive Event : Type :=
| StatusChange (st : ConnectionStatus)   (* onConnectionStatusChange(st) *)
| Incoming (m : Message)                 (* onMessageReceived(m) *)
| Sent (m : RealtimeMessage)             (* sendRealtimeMessage(m) *)
| ConsoleError (what : string)           (* console.error(what, error) *)
| SocketDisconnect                       (* socket.disconnect() *)
| SetTimeout (id : nat) (ms : Z) (cb : Callback)
| SetInterval (id : nat) (ms : Z) (cb : Callback)
| ClearInterval (id : nat).

(** The private fields of [class RealtimeService].  The four listener
    slots that no method ever calls ([onTypingUpdate], [onPresenceUpdate],
    [onDeliveryReceipt], [onReadReceipt]) are left out. *)
Record RealtimeService : Type := mkRealtimeService {
  socket : option Socket;
  currentUser : option string;
  messageQueue : list RealtimeMessage;
  reconnectAttempts : nat;
  maxReconnectAttempts : nat;
  heartbeatInterval : option nat;
  onMessageReceived : option (Message -> Completion);
  onConnectionStatusChange : option (ConnectionStatus -> Completion)
}.

Record Runtime : Type := mkRuntime {
  this : RealtimeService;
  timers : list Timer;     (* pending timers, oldest first *)
  nextTimer : nat;         (* next timer handle the host gives out *)
  trace : list Event
}.

(** What the host answers during one call: the values of [nanoid()],
    of the first and second [Date.now()], of [navigator.userAgent], of
    [encryptMessage(content, key, new PublicKey(recipient))] ([None] when
    either the key constructor or the encryption throws) and of the two
    [Math.random()] draws of the simulator. *)
Record Host : Type := mkHost {
  nanoid : string;
  now : Z;
  now' : Z;
  userAgent : string;
  encrypted : option (string * string);
  random_gt_095 : bool;
  random_suffix : string
}.

(* ------------------------------------------------------------------ *)
(** *** Field updates *)

Definition set_socket (v : option Socket) (o : RealtimeService) :=
  mkRealtimeService v (currentUser o) (messageQueue o) (reconnectAttempts o)
    (maxReconnectAttempts o) (heartbeatInterval o) (onMessageReceived o)
    (onConnectionStatusChange o).

Definition set_currentUser (v : option string) (o : RealtimeService) :=
  mkRealtimeService (socket o) v (messageQueue o) (reconnectAttempts o)
    (maxReconnectAttempts o) (heartbeatInterval o) (onMessageReceived o)
    (onConnectionStatusChange o).

Definition set_messageQueue (v : list RealtimeMessage) (o : RealtimeService) :=
  mkRealtimeService (socket o) (currentUser o) v (reconnectAttempts o)
    (maxReconnectAttempts o) (heartbeatInterval o) (onMessageReceived o)
    (onConnectionStatusChange o).

Definition set_reconnectAttempts (v : nat) (o : RealtimeService) :=
  mkRealtimeService (socket o) (currentUser o) (messageQueue o) v
    (maxReconnectAttempts o) (heartbeatInterval o) (onMessageReceived o)
    (onConnectionStatusChange o).

Definition set_heartbeatInterval (v : option nat) (o : RealtimeService) :=
  mkRealtimeService (socket o) (currentUser o) (messageQueue o)
    (reconnectAttempts o) (maxReconnectAttempts o) v (onMessageReceived o)
    (onConnectionStatusChange o).

Definition set_onMessageReceived (v : option (Message -> Completion))
    (o : RealtimeService) :=
  mkRealtimeService (socket o) (currentUser o) (messageQueue o)
    (reconnectAttempts o) (maxReconnectAttempts o) (heartbeatInterval o) v
    (onConnectionStatusChange o).

Definition set_onConnectionStatusChange
    (v : option (ConnectionStatus -> Completion)) (o : RealtimeService) :=
  mkRealtimeService (socket o) (currentUser o) (messageQueue o)
    (reconnectAttempts o) (maxReconnectAttempts o) (heartbeatInterval o)
    (onMessageReceived o) v.

(** Update of the object inside its runtime. *)
Definition on_this (f : RealtimeService -> RealtimeService) (w : Runtime) :=
  mkRuntime (f (this w)) (timers w) (nextTimer w) (trace w).

(** Append one effect to the log. *)
Definition emit (e : Event) (w : Runtime) : Runtime :=
  mkRuntime (this w) (timers w) (nextTimer w) (trace w ++ [e]).

(* ------------------------------------------------------------------ *)
(** *** Host timers *)

(** [setTimeout(cb, ms)] / [setInterval(cb, ms)]: registers the timer and
    returns its handle. *)
Definition register (rep : bool) (ms : Z) (cb : Callback) (w : Runtime)
  : nat * Runtime :=
  let id := nextTimer w in
  (id, mkRuntime (this w) (timers w ++ [mkTimer id rep ms cb]) (S id)
         (trace w ++ [if rep then SetInterval id ms cb else SetTimeout id ms cb])).

Definition setTimeout (cb : Callback) (ms : Z) (w : Runtime) : nat * Runtime :=
  register false ms cb w.

Definition setInterval (cb : Callback) (ms : Z) (w : Runtime) : nat * Runtime :=
  register true ms cb w.

Definition drop_timer (id : nat) (ts : list Timer) : list Timer :=
  filter (fun t => negb (Nat.eqb (timer_id t) id)) ts.

Definition clearInterval (id : nat) (w : Runtime) : Runtime :=
  mkRuntime (this w) (drop_timer id (timers w)) (nextTimer w)
    (trace w ++ [ClearInterval id]).

(* ------------------------------------------------------------------ *)
(** *** The exception monad of the methods *)

Inductive Outcome (A : Type) : Type :=
| Returned (a : A) (w : Runtime)
| Thrown (w : Runtime).
Arguments Returned {A} a w.
Arguments Thrown {A} w.

Definition Action (A : Type) : Type := Runtime -> Outcome A.

Definition ret {A} (a : A) : Action A := fun w => Returned a w.

Definition throw {A} : Action A := fun w => Thrown w.

Definition bind {A B} (m : Action A) (k : A -> Action B) : Action B :=
  fun w => match m w with
           | Returned a w' => k a w'
           | Thrown w' => Thrown w'
           end.

(** [try { body } catch (error) { handler }] *)
Definition try_catch {A} (body handler : Action A) : Action A :=
  fun w => match body w with
           | Returned a w' => Returned a w'
           | Thrown w' => handler w'
           end.

(** A statement that cannot throw. *)
Definition lift (f : Runtime -> Runtime) : Action unit :=
  fun w => Returned tt (f w).

(** The runtime a call leaves behind, however it completed. *)
Definition final {A} (r : Outcome A) : Runtime :=
  match r with Returned _ w => w | Thrown w => w end.

Definition returned {A} (r : Outcome A) : bool :=
  match r with Returned _ _ => true | Thrown _ => false end.

Declare Scope action_scope.
Delimit Scope action_scope with action.
Notation "x <- m ;; k" := (bind m (fun x => k))
  (at level 61, m at next level, right associativity) : action_scope.
Notation "m ;; k" := (bind m (fun _ => k))
  (at level 61, right associativity) : action_scope.
Local Open Scope action_scope.

(* ================================================================== *)
(** ** The methods of [RealtimeService] *)

(** [this.onConnectionStatusChange?.(st)]: nothing happens when no
    listener is registered; otherwise the call is logged and completes the
    way the listener does. *)
Definition notifyStatus (st : ConnectionStatus) : Action unit :=
  fun w => match onConnectionStatusChange (this w) with
           | None => Returned tt w
           | Some handler =>
               match handler st with
               | Returns => Returned tt (emit (StatusChange st) w)
               | Throws => Thrown (emit (StatusChange st) w)
               end
           end.

(** [this.onMessageReceived?.(m)] *)
Definition notifyMessage (m : Message) : Action unit :=
  fun w => match onMessageReceived (this w) with
           | None => Returned tt w
           | Some handler =>
               match handler m with
               | Returns => Returned tt (emit (Incoming m) w)
               | Throws => Thrown (emit (Incoming m) w)
               end
           end.

(** [this.socket?.connected], [undefined] read as a boolean. *)
Definition socket_connected (o : RealtimeService) : bool :=
  match socket o with
  | Some sock => connected sock
  | None => false
  end.

(** [return this.socket?.connected || true;] *)
Definition isConnected (w : Runtime) : bool :=
  socket_connected (this w) || true.

(** The production [emit] is commented out; the mock logs the message.
    This is the only place an envelope leaves the object. *)
Definition sendRealtimeMessage (m : RealtimeMessage) (w : Runtime) : Runtime :=
  emit (Sent m) w.

(** [while (this.messageQueue.length > 0) { shift; send }].  The test
    [if (message)] inside the loop always passes, a queued envelope being
    an object.  One unit of fuel per iteration; [processMessageQueue]
    hands over the length of the queue, which [processMessageQueue_eq]
    shows to be enough to leave the loop by its exit test. *)
Fixpoint processMessageQueue_loop (fuel : nat) (w : Runtime) : Runtime :=
  match fuel with
  | O => w
  | S fuel' =>
      match messageQueue (this w) with
      | [] => w
      | m :: rest =>
          processMessageQueue_loop fuel'
            (sendRealtimeMessage m (on_this (set_messageQueue rest) w))
      end
  end.

Definition processMessageQueue (w : Runtime) : Runtime :=
  processMessageQueue_loop (List.length (messageQueue (this w))) w.

(** [this.heartbeatInterval = setInterval(..., 30000)]: the previous
    handle, if any, is overwritten without being cleared. *)
Definition startHeartbeat (w : Runtime) : Runtime :=
  let (id, w') := setInterval Heartbeat 30000 w in
  on_this (set_heartbeatInterval (Some id)) w'.

Definition scheduleReconnect (w : Runtime) : Runtime :=
  if reconnectAttempts (this w) <? maxReconnectAttempts (this w) then
    let w1 := on_this (fun o => set_reconnectAttempts (S (reconnectAttempts o)) o) w in
    let delay :=
      Z.min (1000 * 2 ^ Z.of_nat (reconnectAttempts (this w1))) 30000 in
    snd (setTimeout Reconnect delay w1)
  else w.

(** The body of the [try] of [connect].  The production handshake is
    commented out in the source, so what can throw here is the listener. *)
Definition connect_try : Action unit :=
  notifyStatus Connected ;;
  lift startHeartbeat ;;
  lift processMessageQueue.

(** The body of the [catch] of [connect]. *)
Definition connect_catch : Action unit :=
  lift (emit (ConsoleError "Failed to connect to realtime service:")) ;;
  notifyStatus Disconnected ;;
  lift scheduleReconnect.

(** [async connect(userId, authToken?)].  There is no [await] in the body,
    so it runs to completion within the call; [Thrown] is a rejected
    promise.  [userId] is [null] when the reconnect timer passes a
    [this.currentUser!] that was never set. *)
Definition connect (userId : option string) : Action unit :=
  lift (on_this (set_currentUser userId)) ;;
  try_catch connect_try connect_catch.

Definition disconnect : Action unit :=
  lift (fun w => match socket (this w) with
                 | Some _ => on_this (set_socket None) (emit SocketDisconnect w)
                 | None => w
                 end) ;;
  lift (fun w => match heartbeatInterval (this w) with
                 | Some id =>
                     on_this (set_heartbeatInterval None) (clearInterval id w)
                 | None => w
                 end) ;;
  notifyStatus Disconnected.

(** [async sendMessage(...)]: the call is modelled as awaited, nothing
    runs between the encryption and the branch on [isConnected]. *)
Definition sendMessage (h : Host) (content recipientPublicKey : string)
    (senderPrivateKey : list Z) (messageType : MessageType)
    (fileData : option FileData) : Action string :=
  let messageId := nanoid h in
  try_catch
    (match encrypted h with
     | None => throw
     | Some (enc, nonce) =>
         fun w =>
           let realtimeMessage :=
             mkRealtimeMessage messageId message (currentUser (this w))
               recipientPublicKey
               (MessageData messageId enc nonce messageType fileData (now h))
               (now' h) None in
           if isConnected w then
             Returned messageId (sendRealtimeMessage realtimeMessage w)
           else
             Returned messageId
               (on_this (fun o => set_messageQueue
                                    (messageQueue o ++ [realtimeMessage]) o) w)
     end)
    (lift (emit (ConsoleError "Failed to send message:")) ;; throw).

Definition sendTypingIndicator (h : Host) (recipientPublicKey : string)
    (isTyping : bool) (w : Runtime) : Runtime :=
  if negb (isConnected w) then w
  else
    sendRealtimeMessage
      (mkRealtimeMessage (nanoid h) typing (currentUser (this w))
         recipientPublicKey (TypingData isTyping) (now h) None) w.

Definition updatePresence (h : Host) (status : PresenceStatus) (w : Runtime)
  : Runtime :=
  if negb (isConnected w) then w
  else
    sendRealtimeMessage
      (mkRealtimeMessage (nanoid h) presence (currentUser (this w))
         "broadcast" (PresencePayload status (now h) (userAgent h))
         (now' h) None) w.

Definition sendDeliveryReceipt (h : Host) (messageId senderPublicKey : string)
    (w : Runtime) : Runtime :=
  if negb (isConnected w) then w
  else
    sendRealtimeMessage
      (mkRealtimeMessage (nanoid h) delivery_receipt (currentUser (this w))
         senderPublicKey (ReceiptData messageId (now h)) (now' h) None) w.

Definition sendReadReceipt (h : Host) (messageId senderPublicKey : string)
    (w : Runtime) : Runtime :=
  if negb (isConnected w) then w
  else
    sendRealtimeMessage
      (mkRealtimeMessage (nanoid h) read_receipt (currentUser (this w))
         senderPublicKey (ReceiptData messageId (now h)) (now' h) None) w.

Definition onMessage (handler : Message -> Completion) (w : Runtime) : Runtime :=
  on_this (set_onMessageReceived (Some handler)) w.

Definition onConnectionStatus (handler : ConnectionStatus -> Completion)
    (w : Runtime) : Runtime :=
  on_this (set_onConnectionStatusChange (Some handler)) w.

(* ------------------------------------------------------------------ *)
(** *** Timer callbacks and the constructor *)

(** JavaScript truthiness of [this.currentUser]. *)
Definition truthy (u : option string) : bool :=
  match u with
  | Some EmptyString => false
  | Some _ => true
  | None => false
  end.

Definition mockMessage (h : Host) (recipient : option string) : Message :=
  mkMessage (nanoid h) (String.append "demo_user_" (random_suffix h)) "@demo_user"
    (match recipient with Some u => u | None => "" end)
    "Hello! This is a simulated real-time message." "mock_nonce" (now h)
    "delivered" text.

(** What each closure does when the host runs it. *)
Definition run_callback (h : Host) (cb : Callback) : Action unit :=
  match cb with
  | MockConnected =>
      notifyStatus Connected ;; lift startHeartbeat
  | SimulateIncoming =>
      fun w =>
        if random_gt_095 h && truthy (currentUser (this w)) then
          notifyMessage (mockMessage h (currentUser (this w))) w
        else Returned tt w
  | Heartbeat =>
      fun w =>
        if isConnected w then Returned tt (updatePresence h online w)
        else Returned tt w
  | Reconnect =>
      notifyStatus Reconnecting ;;
      (fun w => Returned tt (final (connect (currentUser (this w)) w)))
  end.

(** The host fires the pending timer with handle [id]: a timeout leaves
    the table before its callback runs, an interval stays.  Which timer
    fires when is the host's choice; the model lets any pending timer
    fire. *)
Definition fire (h : Host) (id : nat) : Action unit :=
  fun w => match find (fun t => Nat.eqb (timer_id t) id) (timers w) with
           | None => Returned tt w
           | Some t =>
               run_callback h (callback t)
                 (if repeats t then w
                  else mkRuntime (this w) (drop_timer id (timers w))
                         (nextTimer w) (trace w))
           end.

Definition simulateIncomingMessages (w : Runtime) : Runtime :=
  snd (setInterval SimulateIncoming 10000 w).

Definition initializeMockConnection (w : Runtime) : Runtime :=
  simulateIncomingMessages (snd (setTimeout MockConnected 1000 w)).

(** [new RealtimeService()] in a host with no timers yet. *)
Definition new_RealtimeService : Runtime :=
  initializeMockConnection
    (mkRuntime (mkRealtimeService None None [] 0 5 None None None) [] 1 []).

(* ================================================================== *)
(** ** Observations on a runtime *)

(** The envelopes handed to [sendRealtimeMessage] so far, in order. *)
Definition transmitted (w : Runtime) : list RealtimeMessage :=
  flat_map (fun e => match e with Sent m => [m] | _ => [] end) (trace w).

(** The statuses among a list of log entries. *)
Definition notifications_of (es : list Event) : list ConnectionStatus :=
  flat_map (fun e => match e with StatusChange st => [st] | _ => [] end) es.

(** The statuses the connection listener was called with, in order. *)
Definition notifications (w : Runtime) : list ConnectionStatus :=
  notifications_of (trace w).

(** The delays of the reconnect timeouts scheduled so far, in order. *)
Definition reconnect_delays (w : Runtime) : list Z :=
  flat_map (fun e => match e with
                     | SetTimeout _ ms Reconnect => [ms]
                     | _ => []
                     end) (trace w).

Definition is_reconnect (t : Timer) : bool :=
  match callback t with Reconnect => true | _ => false end.

(** The pending reconnect timeouts. *)
Definition pending_reconnects (w : Runtime) : list Timer :=
  filter is_reconnect (timers w).

(** How a call of the connection listener with [st] would complete
    ([Returns] when no listener is registered: [?.] skips the call). *)
Definition listener_on (st : ConnectionStatus) (w : Runtime) : Completion :=
  match onConnectionStatusChange (this w) with
  | Some handler => handler st
  | None => Returns
  end.

(** The log entry of a listener call, if a listener is registered. *)
Definition heard (st : ConnectionStatus) (w : Runtime) : list Event :=
  match onConnectionStatusChange (this w) with
  | Some _ => [StatusChange st]
  | None => []
  end.

(** The connection as the socket reports it: the state the queueing
    policy of the specification speaks about. *)
Definition not_connected (w : Runtime) : Prop :=
  socket_connected (this w) = false.

(** Timer handles are unique and below the next handle of the host. *)
Definition wf_timers (w : Runtime) : Prop :=
  NoDup (map timer_id (timers w)) /\
  Forall (fun t => timer_id t < nextTimer w) (timers w).

(** The back-off formula in the words of the specification:
    [delay = min(baseDelay * 2^attempt, maxDelay)]. *)
Definition backoff_delay (baseDelay maxDelay : Z) (attempt : nat) : Z :=
  Z.min (baseDelay * 2 ^ Z.of_nat attempt) maxDelay.

(* ------------------------------------------------------------------ *)
(** *** Sequences of calls *)

(** One awaited [sendMessage] call with what the host answered. *)
Record SendCall : Type := mkSendCall {
  sc_host : Host;
  sc_content : string;
  sc_recipient : string;
  sc_key : list Z;
  sc_type : MessageType;
  sc_file : option FileData
}.

Definition send (c : SendCall) (w : Runtime) : Runtime :=
  final (sendMessage (sc_host c) (sc_content c) (sc_recipient c) (sc_key c)
           (sc_type c) (sc_file c) w).

Fixpoint send_all (cs : list SendCall) (w : Runtime) : Runtime :=
  match cs with
  | [] => w
  | c :: cs' => send_all cs' (send c w)
  end.

(** The envelope [sendMessage] builds for a call, when the encryption
    succeeds. *)
Definition envelope (sender : option string) (c : SendCall)
  : option RealtimeMessage :=
  match encrypted (sc_host c) with
  | Some (enc, nonce) =>
      Some (mkRealtimeMessage (nanoid (sc_host c)) message sender
              (sc_recipient c)
              (MessageData (nanoid (sc_host c)) enc nonce (sc_type c)
                 (sc_file c) (now (sc_host c)))
              (now' (sc_host c)) None)
  | None => None
  end.

Definition envelopes (sender : option string) (cs : list SendCall)
  : list RealtimeMessage :=
  flat_map (fun c => match envelope sender c with
                     | Some m => [m]
                     | None => []
                     end) cs.

(** Everything a client or the host can do to the service. *)
Inductive Call : Type :=
| CallConnect (userId : string)
| CallDisconnect
| CallSendMessage (c : SendCall)
| CallSendTypingIndicator (h : Host) (recipientPublicKey : string) (isTyping : bool)
| CallUpdatePresence (h : Host) (status : PresenceStatus)
| CallSendDeliveryReceipt (h : Host) (messageId senderPublicKey : string)
| CallSendReadReceipt (h : Host) (messageId senderPublicKey : string)
| CallOnMessage (handler : Message -> Completion)
| CallOnConnectionStatus (handler : ConnectionStatus -> Completion)
| TimerFires (h : Host) (id : nat).

Definition step (c : Call) (w : Runtime) : Runtime :=
  match c with
  | CallConnect userId => final (connect (Some userId) w)
  | CallDisconnect => final (disconnect w)
  | CallSendMessage c => send c w
  | CallSendTypingIndicator h r t => sendTypingIndicator h r t w
  | CallUpdatePresence h st => updatePresence h st w
  | CallSendDeliveryReceipt h m s => sendDeliveryReceipt h m s w
  | CallSendReadReceipt h m s => sendReadReceipt h m s w
  | CallOnMessage handler => onMessage handler w
  | CallOnConnectionStatus handler => onConnectionStatus handler w
  | TimerFires h id => final (fire h id w)
  end.

Fixpoint run (cs : list Call) (w : Runtime) : Runtime :=
  match cs with
  | [] => w
  | c :: cs' => run cs' (step c w)
  end.

(** The host lets the oldest pending reconnect timeout fire, [n] times
    over (or until none is pending). *)
Fixpoint retries (h : Host) (n : nat) (w : Runtime) : Runtime :=
  match n with
  | O => w
  | S n' =>
      match pending_reconnects w with
      | [] => w
      | t :: _ => retries h n' (final (fire h (timer_id t) w))
      end
  end.

(** A listener that throws when told 'connected': the one way the [try]
    of [connect] can fail in the source as it stands. *)
Definition refuses_connected (st : ConnectionStatus) : Completion :=
  match st with Connected => Throws | _ => Returns end.

Definition accepts_all (st : ConnectionStatus) : Completion := Returns.

(** A fresh service on which every connect attempt fails. *)
Definition failing_service : Runtime :=
  onConnectionStatus refuses_connected new_RealtimeService.

(** [connect(userId)] followed by [n] firings of the reconnect timer. *)
Definition connect_and_retry (h : Host) (userId : string) (n : nat)
    (w : Runtime) : Runtime :=
  retries h n (final (connect (Some userId) w)).

(** The runtime after a listener call with [st], whatever its outcome. *)
Definition tell (st : ConnectionStatus) (w : Runtime) : Runtime :=
  match onConnectionStatusChange (this w) with
  | Some _ => emit (StatusChange st) w
  | None => w
  end.

(** The runtime after the whole queue has been handed to the transport. *)
Definition drained (w : Runtime) : Runtime :=
  mkRuntime (set_messageQueue [] (this w)) (timers w) (nextTimer w)
    (trace w ++ map Sent (messageQueue (this w))).

(* ------------------------------------------------------------------ *)
(** *** Sample inputs *)

Definition host_a : Host :=
  mkHost "Vk3xQ" 1718000000000 1718000000001 "Mozilla/5.0"
    (Some ("9f2c", "a1b2")) false "k3x9q".

Definition host_b : Host :=
  mkHost "p0Lw7" 1718000000500 1718000000501 "Mozilla/5.0"
    (Some ("77de", "c3d4")) false "z81mn".

(** Bob's wallet key: a base58 string that decodes to 32 bytes, so that
    [new PublicKey(bob_key)] returns and the encryption is reached. *)
Definition bob_key : string := "TokenkegQfeZyiNwAJbNbGKPFXCWuBvf9Ss623VQ5DA".

(** The sender's secret key, a [Uint8Array] of 64 bytes. *)
Definition sender_key : list Z := map Z.of_nat (seq 1 64).

Definition hi_bob : SendCall :=
  mkSendCall host_a "hi" bob_key sender_key text None.

Definition again_bob : SendCall :=
  mkSendCall host_b "are you there?" bob_key sender_key text None.

(** A fresh service whose listener takes every status. *)
Definition listening_service : Runtime :=
  onConnectionStatus accepts_all new_RealtimeService.

Definition queued_message (id : string) : RealtimeMessage :=
  mkRealtimeMessage id message (Some "alice") "bob"
    (MessageData id "9f2c" "a1b2" text None 1718000000000) 1718000000001 None.

(** An object whose queue holds two envelopes. *)
Definition backlog_service : Runtime :=
  on_this (set_messageQueue [queued_message "q1"; queued_message "q2"])
    listening_service.

(** The service after a first failed [connect("alice")]. *)
Definition alice_failed_once : Runtime :=
  final (connect (Some "alice") failing_service).

(** ... and after the client has swapped in a listener that takes every
    status. *)
Definition alice_recovering : Runtime :=
  onConnectionStatus accepts_all alice_failed_once.

(** ... after the reconnect timeout has fired and the retry succeeded. *)
Definition alice_back_online : Runtime :=
  final (fire host_a 3 alice_recovering).

(** ... and after the client has put back the listener that makes
    connects fail. *)
Definition alice_failing_again : Runtime :=
  onConnectionStatus refuses_connected alice_back_online.

(** A listener that throws whatever it is told. *)
Definition throws_always (st : ConnectionStatus) : Completion := Throws.

(** A fresh service with that listener. *)
Definition hostile_service : Runtime :=
  onConnectionStatus throws_always new_RealtimeService.

(* ------------------------------------------------------------------ *)
(** *** Statements of the specification, as they are worded there *)

(** An error in the [try] of [connect] never reaches the caller. *)
Definition failure_never_propagates (userId : option string) (w : Runtime)
  : Prop :=
  forall thrown,
    connect_try (on_this (set_currentUser userId) w) = Thrown thrown ->
    returned (connect userId w) = true.

(** Sends issued while not connected end up in the queue, in call
    order. *)
Definition queued_in_call_order (cs : list SendCall) (w : Runtime) : Prop :=
  not_connected w ->
  messageQueue (this (send_all cs w)) =
  messageQueue (this w) ++ envelopes (currentUser (this w)) cs.

(** The delays of the failure scenario: 1s, 2s, 4s, 8s, 16s. *)
Definition delays_from_one_second : list Z :=
  [1000; 2000; 4000; 8000; 16000]%Z.

(** A successful connect resets the attempt counter. *)
Definition reset_on_success (userId : option string) (w : Runtime) : Prop :=
  listener_on Connected w = Returns ->
  reconnectAttempts (this (final (connect userId w))) = 0.

(** A typing or presence signal issued while not connected is dropped. *)
Definition dropped_when_not_connected (h : Host) (recipientPublicKey : string)
    (isTyping : bool) (status : PresenceStatus) (w : Runtime) : Prop :=
  not_connected w ->
  sendTypingIndicator h recipientPublicKey isTyping w = w /\
  updatePresence h status w = w.

Definition disconnect_twice (w : Runtime) : Runtime :=
  final (disconnect (final (disconnect w))).

(** Two disconnects in a row notify the listener once. *)
Definition notified_once (w : Runtime) : Prop :=
  notifications (disconnect_twice w) = notifications w ++ [Disconnected].

(** After a disconnect no timer of the session does anything any more. *)
Definition silent_after_disconnect (w : Runtime) : Prop :=
  forall h id,
    trace (final (fire h id (final (disconnect w)))) =
    trace (final (disconnect w)).

(* ------------------------------------------------------------------ *)
(** *** Relations between the runtime before and after a call *)

(** What no call can undo: the retry budget is fixed, the attempt counter
    only rises, by one for each reconnect timeout scheduled and never past
    the budget, the queue keeps its content or is emptied, the log grows
    at its end, and a well-formed timer table stays well-formed. *)
Record evolves (w w' : Runtime) : Prop := mk_evolves {
  ev_max : maxReconnectAttempts (this w') = maxReconnectAttempts (this w);
  ev_mono : reconnectAttempts (this w) <= reconnectAttempts (this w');
  ev_cap : reconnectAttempts (this w') <=
           Nat.max (reconnectAttempts (this w)) (maxReconnectAttempts (this w));
  ev_count : List.length (reconnect_delays w') + reconnectAttempts (this w) =
             List.length (reconnect_delays w) + reconnectAttempts (this w');
  ev_queue : messageQueue (this w') = messageQueue (this w) \/
             messageQueue (this w') = [];
  ev_trace : exists es, trace w' = trace w ++ es;
  ev_timers : wf_timers w -> wf_timers w'
}.

(** The listener makes every connect attempt fail and takes the other
    two statuses. *)
Definition always_failing (w : Runtime) : Prop :=
  listener_on Connected w = Throws /\
  listener_on Disconnected w = Returns /\
  listener_on Reconnecting w = Returns.

(** One failed connect attempt, seen from the retry logic: within the
    budget the counter rises and a reconnect timeout with the back-off
    delay of the new count is pending; past the budget nothing moves. *)
Definition one_failure (w w' : Runtime) : Prop :=
  let a := reconnectAttempts (this w) in
  onConnectionStatusChange (this w') = onConnectionStatusChange (this w) /\
  maxReconnectAttempts (this w') = maxReconnectAttempts (this w) /\
  (wf_timers w -> wf_timers w') /\
  if a <? maxReconnectAttempts (this w) then
    reconnectAttempts (this w') = S a /\
    reconnect_delays w' =
      reconnect_delays w ++ [backoff_delay 1000 30000 (S a)] /\
    pending_reconnects w' <> []
  else
    reconnectAttempts (this w') = a /\
    reconnect_delays w' = reconnect_delays w.

(** As the specification words it: the attempts of a run of failures are counted from 1: the failed
    connect that opens the run schedules its retry after the back-off
    of attempt 1. *)
Definition first_failure_is_attempt_one (userId : option string)
    (w : Runtime) : Prop :=
  always_failing w ->
  reconnect_delays (final (connect userId w)) =
  reconnect_delays w ++ [backoff_delay 1000 30000 1].

(** [m] relates every runtime to the one it leaves behind by [R]. *)
Definition respects (R : Runtime -> Runtime -> Prop) {A} (m : Action A)
  : Prop :=
  forall w, R w (final (m w)).

(* ------------------------------------------------------------------ *)
(** *** Reachable runtimes *)

Definition is_heartbeat (t : Timer) : bool :=
  match callback t with Heartbeat => true | _ => false end.

(** The pending heartbeat intervals. *)
Definition pending_heartbeats (w : Runtime) : list Timer :=
  filter is_heartbeat (timers w).

(** The messages handed to the message listener so far, in order. *)
Definition delivered (w : Runtime) : list Message :=
  flat_map (fun e => match e with Incoming m => [m] | _ => [] end) (trace w).

(** The number of [console.error] lines so far. *)
Definition errors_logged (w : Runtime) : nat :=
  List.length
    (flat_map (fun e => match e with ConsoleError s => [s] | _ => [] end)
       (trace w)).

(** How each closure is registered by the class: kind of timer and
    delay. *)
Definition timer_shape (t : Timer) : Prop :=
  match callback t with
  | MockConnected => repeats t = false /\ delay t = 1000%Z
  | SimulateIncoming => repeats t = true /\ delay t = 10000%Z
  | Heartbeat => repeats t = true /\ delay t = 30000%Z
  | Reconnect => repeats t = false /\ (2000 <= delay t <= 30000)%Z
  end.

(** What holds of a runtime that was built by [new RealtimeService()]
    and then only used through the class. *)
Record sound (w : Runtime) : Prop := mk_sound {
  sound_timers : wf_timers w;
  sound_socket : socket (this w) = None;
  sound_queue : messageQueue (this w) = [];
  sound_budget : maxReconnectAttempts (this w) = 5;
  sound_attempts : reconnectAttempts (this w) <= 5;
  sound_heartbeat :
    forall id, heartbeatInterval (this w) = Some id ->
               id < nextTimer w /\
               forall t, In t (timers w) -> timer_id t = id ->
                         callback t = Heartbeat;
  sound_shapes : Forall timer_shape (timers w)
}.

Definition stays_sound (w w' : Runtime) : Prop := sound w -> sound w'.

(** The reconnect timeouts scheduled between two runtimes are the
    back-offs of the attempts counted between them. *)
Definition paced (w w' : Runtime) : Prop :=
  maxReconnectAttempts (this w') = maxReconnectAttempts (this w) /\
  reconnectAttempts (this w) <= reconnectAttempts (this w') /\
  reconnect_delays w' =
    reconnect_delays w ++
    map (backoff_delay 1000 30000)
      (seq (S (reconnectAttempts (this w)))
         (reconnectAttempts (this w') - reconnectAttempts (this w))).

Definition same_user (w w' : Runtime) : Prop :=
  currentUser (this w') = currentUser (this w).

(** The heartbeat interval as [startHeartbeat] registers it. *)
Definition heartbeat_timer (id : nat) : Timer := mkTimer id true 30000 Heartbeat.

(** The envelope of a heartbeat. *)
Definition presence_online (h : Host) (w : Runtime) : RealtimeMessage :=
  mkRealtimeMessage (nanoid h) presence (currentUser (this w)) "broadcast"
    (PresencePayload online (now h) (userAgent h)) (now' h) None.

(** A service with a listener, connected as alice. *)
Definition alice_connected : Runtime :=
  final (connect (Some "alice") listening_service).

(** ... whose client also listens for messages. *)
Definition alice_listening : Runtime :=
  onMessage (fun _ => Returns) alice_connected.

Definition lucky_host : Host :=
  mkHost "s1mUl" 1718000001000 1718000001001 "Mozilla/5.0" None true "abcde".

(* ================================================================== *)
(** ** The recipient field ([components/RecipientInput.tsx]) *)

Module RecipientInput.

(** [parseUserInput(value).type] *)
Inductive InputType : Type := username | address.

(** A call to a collaborator: it returns a value or throws. *)
Inductive Answer (A : Type) : Type :=
| Resolves (a : A)
| Rejects.
Arguments Resolves {A} a.
Arguments Rejects {A}.

(** What the collaborators answer during one validation.
    [parseUserInput] (lib/solana-name-service), [validateSolanaAddress]
    (lib/peers) and [fetchProfile] (lib/profile) are imported by the
    component; their code is not part of it, so their answers are inputs.
    [fetchProfile] answers a profile or [null], and the [username] of a
    profile is optional. *)
Record Lookups : Type := mkLookups {
  parseUserInput : Answer (InputType * string);
  resolveUsername : Answer (option string);
  validateSolanaAddress : Answer bool;
  reverseResolve : Answer (option string);
  fetchProfile : Answer (option (option string))
}.

(** The part of a [Peer] the handlers read. *)
Record Peer : Type := mkPeer {
  publicKey : string;
  peer_username : option string;
  nickname : option string
}.

(** The [useState] cells and the ref the handlers below write.  (The
    cells of the nickname editor and of the peer filter are written by
    other handlers only.) *)
Record Fields : Type := mkFields {
  input : string;
  error : string;
  showDropdown : bool;
  selectedPeerUsername : option string;
  isValidating : bool;
  resolvedAddress : option string;
  inputType : option InputType;
  validationTimeoutRef : option nat
}.

(** The component in its host: its cells, the debounce timeouts not yet
    fired or cleared (handle and the value to validate), the next handle
    of the host, and the arguments [onRecipientSelect] was called with,
    in call order. *)
Record UI : Type := mkUI {
  fields : Fields;
  pending : list (nat * string);
  nextHandle : nat;
  selections : list string
}.

Definition on_fields (f : Fields -> Fields) (u : UI) : UI :=
  mkUI (f (fields u)) (pending u) (nextHandle u) (selections u).

Definition setInput (v : string) : UI -> UI :=
  on_fields (fun s => mkFields v (error s) (showDropdown s)
    (selectedPeerUsername s) (isValidating s) (resolvedAddress s)
    (inputType s) (validationTimeoutRef s)).

Definition setError (v : string) : UI -> UI :=
  on_fields (fun s => mkFields (input s) v (showDropdown s)
    (selectedPeerUsername s) (isValidating s) (resolvedAddress s)
    (inputType s) (validationTimeoutRef s)).

Definition setShowDropdown (v : bool) : UI -> UI :=
  on_fields (fun s => mkFields (input s) (error s) v
    (selectedPeerUsername s) (isValidating s) (resolvedAddress s)
    (inputType s) (validationTimeoutRef s)).

Definition setSelectedPeerUsername (v : option string) : UI -> UI :=
  on_fields (fun s => mkFields (input s) (error s) (showDropdown s)
    v (isValidating s) (resolvedAddress s)
    (inputType s) (validationTimeoutRef s)).

Definition setIsValidating (v : bool) : UI -> UI :=
  on_fields (fun s => mkFields (input s) (error s) (showDropdown s)
    (selectedPeerUsername s) v (resolvedAddress s)
    (inputType s) (validationTimeoutRef s)).

Definition setResolvedAddress (v : option string) : UI -> UI :=
  on_fields (fun s => mkFields (input s) (error s) (showDropdown s)
    (selectedPeerUsername s) (isValidating s) v
    (inputType s) (validationTimeoutRef s)).

Definition setInputType (v : option InputType) : UI -> UI :=
  on_fields (fun s => mkFields (input s) (error s) (showDropdown s)
    (selectedPeerUsername s) (isValidating s) (resolvedAddress s)
    v (validationTimeoutRef s)).

Definition setValidationTimeoutRef (v : option nat) : UI -> UI :=
  on_fields (fun s => mkFields (input s) (error s) (showDropdown s)
    (selectedPeerUsername s) (isValidating s) (resolvedAddress s)
    (inputType s) v).

(** The parent's callback. *)
Definition onRecipientSelect (a : string) (u : UI) : UI :=
  mkUI (fields u) (pending u) (nextHandle u) (selections u ++ [a]).

Definition clearTimeout (h : nat) (u : UI) : UI :=
  mkUI (fields u) (filter (fun e => negb (Nat.eqb (fst e) h)) (pending u))
    (nextHandle u) (selections u).

(** [setTimeout(async () => validateAndSelectAddress(value), 500)] *)
Definition setTimeout (value : string) (u : UI) : nat * UI :=
  (nextHandle u,
   mkUI (fields u) (pending u ++ [(nextHandle u, value)]) (S (nextHandle u))
     (selections u)).

(** [x || null] on an optional string: [undefined], [null] and the empty
    string are falsy. *)
Definition truthy_string (x : option string) : option string :=
  match x with
  | Some EmptyString => None
  | Some s => Some s
  | None => None
  end.

Definition is_empty (s : string) : bool :=
  match s with EmptyString => true | _ => false end.

Definition dquote : string := String (Ascii.ascii_of_nat 34) EmptyString.

Definition at_name (name : string) : string := String.append "@" name.

Definition not_found (name : string) : string :=
  String.append "Username "
    (String.append dquote
       (String.append (at_name name) (String.append dquote " not found"))).

Notation "u |> f" := (f u) (at level 45, left associativity, only parsing).

(** [validateAndSelectAddress(value)], run to its end: the result and
    the component afterwards.  The three [return false] branches write
    the same cells in the same order. *)
Definition validateAndSelectAddress (k : Lookups) (value : string) (u : UI)
  : bool * UI :=
  let u := setIsValidating true u in
  let caught (u : UI) :=
    (false, u |> setError "Failed to resolve address"
              |> setSelectedPeerUsername None
              |> setResolvedAddress None
              |> onRecipientSelect "") in
  let '(result, u) :=
    match parseUserInput k with
    | Rejects => caught u
    | Resolves (type, parsed_value) =>
        let u := setInputType (Some type) u in
        match type with
        | username =>
            match resolveUsername k with
            | Rejects => caught u
            | Resolves resolvedAddr =>
                match truthy_string resolvedAddr with
                | Some addr =>
                    (true, u |> setResolvedAddress (Some addr)
                             |> onRecipientSelect addr
                             |> setSelectedPeerUsername
                                  (Some (at_name parsed_value))
                             |> setError "")
                | None =>
                    (false, u |> setError (not_found parsed_value)
                              |> setSelectedPeerUsername None
                              |> setResolvedAddress None
                              |> onRecipientSelect "")
                end
            end
        | address =>
            match validateSolanaAddress k with
            | Rejects => caught u
            | Resolves true =>
                let u := u |> setResolvedAddress (Some parsed_value)
                           |> onRecipientSelect parsed_value in
                let u :=
                  match reverseResolve k with
                  | Rejects => setSelectedPeerUsername None u
                  | Resolves name =>
                      match truthy_string name with
                      | Some n => setSelectedPeerUsername (Some (at_name n)) u
                      | None =>
                          match fetchProfile k with
                          | Rejects => setSelectedPeerUsername None u
                          | Resolves profile =>
                              setSelectedPeerUsername
                                (truthy_string
                                   (match profile with
                                    | Some name => name
                                    | None => None
                                    end)) u
                          end
                      end
                  end in
                (true, setError "" u)
            | Resolves false =>
                (false, u |> setError "Invalid Solana address"
                          |> setSelectedPeerUsername None
                          |> setResolvedAddress None
                          |> onRecipientSelect "")
            end
        end
    end in
  (result, setIsValidating false u).

Definition handleInputChange (value : string) (u : UI) : UI :=
  let u := u |> setInput value |> setError "" |> setShowDropdown true in
  let u :=
    match validationTimeoutRef (fields u) with
    | Some h => clearTimeout h u
    | None => u
    end in
  if is_empty value then
    u |> onRecipientSelect "" |> setSelectedPeerUsername None
  else
    let '(h, u) := setTimeout value u in
    setValidationTimeoutRef (Some h) u.

Definition clearInput (u : UI) : UI :=
  let u := u |> setInput "" |> setError "" |> setSelectedPeerUsername None
             |> setShowDropdown false |> onRecipientSelect "" in
  match validationTimeoutRef (fields u) with
  | Some h => clearTimeout h u
  | None => u
  end.

Definition handlePeerSelect (k : Lookups) (peer : Peer) (u : UI) : UI :=
  let u := u |> setInput (publicKey peer)
             |> setSelectedPeerUsername
                  (match truthy_string (nickname peer) with
                   | Some n => Some n
                   | None => truthy_string (peer_username peer)
                   end)
             |> setShowDropdown false
             |> setError "" in
  let '(isValid, u) := validateAndSelectAddress k (publicKey peer) u in
  if isValid then onRecipientSelect (publicKey peer) u else u.

(** The host lets the debounce timeout with handle [h] fire. *)
Definition fire (k : Lookups) (h : nat) (u : UI) : UI :=
  match find (fun e => Nat.eqb (fst e) h) (pending u) with
  | None => u
  | Some (_, value) =>
      snd (validateAndSelectAddress k value (clearTimeout h u))
  end.

(** The component as first rendered. *)
Definition mounted : UI :=
  mkUI (mkFields "" "" false None false None None None) [] 1 [].

(** What the user and the host can do to the component. *)
Inductive Event : Type :=
| Typed (value : string)
| Cleared
| PeerSelected (k : Lookups) (peer : Peer)
| TimeoutFires (k : Lookups) (h : nat).

Definition step (e : Event) (u : UI) : UI :=
  match e with
  | Typed value => handleInputChange value u
  | Cleared => clearInput u
  | PeerSelected k peer => handlePeerSelect k peer u
  | TimeoutFires k h => fire k h u
  end.

Fixpoint run (es : list Event) (u : UI) : UI :=
  match es with
  | [] => u
  | e :: es' => run es' (step e u)
  end.

(** The address a validation accepts, read off the answers: a username
    that resolves to a non-empty address, or an address that validates. *)
Definition accepted (k : Lookups) : option string :=
  match parseUserInput k with
  | Resolves (username, _) =>
      match resolveUsername k with
      | Resolves a => truthy_string a
      | Rejects => None
      end
  | Resolves (address, v) =>
      match validateSolanaAddress k with
      | Resolves true => Some v
      | _ => None
      end
  | Rejects => None
  end.

(** Every pending debounce timeout is the one the ref points to. *)
Definition debounced (u : UI) : Prop :=
  NoDup (map fst (pending u)) /\
  Forall (fun e => fst e < nextHandle u) (pending u) /\
  Forall (fun e => validationTimeoutRef (fields u) = Some (fst e)) (pending u).

(** Sample answers and peers. *)
Definition knows_bob : Lookups :=
  mkLookups (Resolves (username, "bob")) (Resolves (Some "B0bAddr"))
    (Resolves false) Rejects Rejects.

Definition valid_address : Lookups :=
  mkLookups (Resolves (address, "B0bAddr")) Rejects (Resolves true)
    Rejects Rejects.

Definition unknown_name : Lookups :=
  mkLookups (Resolves (username, "bo")) (Resolves None) (Resolves false)
    Rejects Rejects.

Definition bob : Peer := mkPeer "B0bAddr" (Some "@bob") None.

End RecipientInput.

(* ================================================================== *)
(** ** The active chat of the messenger ([App.tsx]) *)

Module App.

(** [Chat.type] *)
Inductive ChatType : Type := direct | group.

(** The fields of a [Chat] that [getActiveChatDetails] reads. *)
Record Chat : Type := mkChat {
  id : string;
  type : ChatType;
  name : option string;
  participants : list string
}.

(** The fields of a [Peer] that [getActiveChatDetails] reads. *)
Record Peer : Type := mkPeer {
  publicKey : string;
  username : option string;
  nickname : option string;
  isOnline : bool
}.

(** The object [getActiveChatDetails] returns.  [recipientId] is
    [otherParticipant!], which is [undefined] at run time when no
    participant differs from the wallet key. *)
Record Details : Type := mkDetails {
  details_id : string;
  details_name : string;
  recipientId : option string;
  details_isOnline : bool;
  details_type : ChatType
}.

(** The call returns [null] or the details, or throws the [TypeError] of
    [publicKey!.toString()] on a [null] wallet key. *)
Inductive Result : Type :=
| Threw
| Gave (d : option Details).

(** JavaScript truthiness of an optional string. *)
Definition truthy_string (x : option string) : option string :=
  match x with
  | Some EmptyString => None
  | Some s => Some s
  | None => None
  end.

(** [s.slice(0, 4)] and [s.slice(-4)].  In this module a [string] is
    read as the sequence of the UTF-16 code units of a JavaScript
    string, one character per unit, which covers the strings whose
    units are below 256: wallet keys are base58 and chat ids are built
    from them and from digits, all ASCII.  [substring] then cuts units,
    as [slice] does; text with higher units is outside the type. *)
Definition first4 (s : string) : string := substring 0 4 s.

Definition last4 (s : string) : string :=
  substring (String.length s - 4) 4 s.

(** The template [`${p?.slice(0, 4)}...${p?.slice(-4)}`]; an [undefined]
    prints as the word. *)
Definition shortened (p : option string) : string :=
  match p with
  | Some s => String.append (first4 s) (String.append "..." (last4 s))
  | None => "undefined...undefined"
  end.

(** [chat.participants.find((p) => p !== publicKey!.toString())]: the
    callback, and with it the dereference of the wallet key, runs once
    per participant visited, so an empty list never throws.  [None] is
    the throw, [Some None] the answer [undefined]. *)
Definition otherParticipant (publicKey : option string) (ps : list string)
  : option (option string) :=
  match ps with
  | [] => Some None
  | _ :: _ =>
      match publicKey with
      | None => None
      | Some me => Some (find (fun p => negb (String.eqb p me)) ps)
      end
  end.

Definition getActiveChatDetails (publicKey : option string)
    (activeChat : option string) (chats : list Chat) (peers : list Peer)
  : Result :=
  match truthy_string activeChat with
  | None => Gave None
  | Some active =>
      match find (fun c => String.eqb (id c) active) chats with
      | None => Gave None
      | Some chat =>
          match type chat with
          | direct =>
              match otherParticipant publicKey (participants chat) with
              | None => Threw
              | Some other =>
                  let peer :=
                    match other with
                    | Some o =>
                        find (fun p => String.eqb (App.publicKey p) o) peers
                    | None => None
                    end in
                  let shown :=
                    match peer with
                    | Some p =>
                        match truthy_string (username p) with
                        | Some n => Some n
                        | None => truthy_string (nickname p)
                        end
                    | None => None
                    end in
                  Gave (Some (mkDetails (id chat)
                    (match shown with
                     | Some n => n
                     | None => shortened other
                     end)
                    other
                    (match peer with Some p => isOnline p | None => false end)
                    direct))
              end
          | group =>
              Gave (Some (mkDetails (id chat)
                (match truthy_string (name chat) with
                 | Some n => n
                 | None => "Group Chat"
                 end)
                (Some "") false group))
          end
      end
  end.

(** The active chat, as the function looks it up. *)
Definition active_chat (activeChat : option string) (chats : list Chat)
  : option Chat :=
  match truthy_string activeChat with
  | Some active => find (fun c => String.eqb (id c) active) chats
  | None => None
  end.

Definition is_direct (c : Chat) : bool :=
  match type c with direct => true | group => false end.

Definition has_participants (c : Chat) : bool :=
  match participants c with [] => false | _ :: _ => true end.

(** Sample chats. *)
Definition with_bob : Chat := mkChat "c-bob" direct None ["4lice"; "B0bKeyB0bKey"].

Definition with_self : Chat := mkChat "c-self" direct None ["4lice"; "4lice"].

End App.

(* ================================================================== *)
(** ** Basic facts *)

Lemma flat_map_snoc {A B} (f : A -> list B) (l : list A) (a : A) :
  flat_map f (l ++ [a]) = flat_map f l ++ f a.
Proof.
  rewrite flat_map_app. simpl. now rewrite app_nil_r.
Qed.

Lemma transmitted_emit e w :
  transmitted (emit e w) =
  transmitted w ++ match e with Sent m => [m] | _ => [] end.
Proof. unfold transmitted, emit; simpl. apply flat_map_snoc. Qed.

Lemma notifications_emit e w :
  notifications (emit e w) =
  notifications w ++ match e with StatusChange st => [st] | _ => [] end.
Proof.
  unfold notifications, notifications_of, emit; simpl. apply flat_map_snoc.
Qed.

Lemma reconnect_delays_emit e w :
  reconnect_delays (emit e w) =
  reconnect_delays w ++
  match e with SetTimeout _ ms Reconnect => [ms] | _ => [] end.
Proof. unfold reconnect_delays, emit; simpl. apply flat_map_snoc. Qed.

Lemma transmitted_map_Sent (l : list RealtimeMessage) :
  flat_map (fun e => match e with Sent m => [m] | _ => [] end) (map Sent l) = l.
Proof. induction l as [|m l IH]; simpl; congruence. Qed.

Lemma isConnected_true w : isConnected w = true.
Proof. unfold isConnected. apply orb_true_r. Qed.

Lemma notifyStatus_eq st w :
  notifyStatus st w =
  match listener_on st w with
  | Returns => Returned tt (tell st w)
  | Throws => Thrown (tell st w)
  end.
Proof.
  unfold notifyStatus, listener_on, tell.
  destruct (onConnectionStatusChange (this w)) as [handler|]; [|reflexivity].
  now destruct (handler st).
Qed.

Lemma tell_emit st w :
  onConnectionStatusChange (this w) <> None ->
  tell st w = emit (StatusChange st) w.
Proof.
  unfold tell. now destruct (onConnectionStatusChange (this w)).
Qed.

Lemma tell_this st w : this (tell st w) = this w.
Proof.
  unfold tell. now destruct (onConnectionStatusChange (this w)).
Qed.

Lemma tell_timers st w : timers (tell st w) = timers w.
Proof.
  unfold tell. now destruct (onConnectionStatusChange (this w)).
Qed.

Lemma tell_nextTimer st w : nextTimer (tell st w) = nextTimer w.
Proof.
  unfold tell. now destruct (onConnectionStatusChange (this w)).
Qed.

Lemma tell_trace st w : trace (tell st w) = trace w ++ heard st w.
Proof.
  unfold tell, heard.
  destruct (onConnectionStatusChange (this w)); simpl; [reflexivity|].
  now rewrite app_nil_r.
Qed.

Lemma tell_transmitted st w : transmitted (tell st w) = transmitted w.
Proof.
  unfold tell. destruct (onConnectionStatusChange (this w)); [|reflexivity].
  rewrite transmitted_emit. apply app_nil_r.
Qed.

Lemma tell_reconnect_delays st w :
  reconnect_delays (tell st w) = reconnect_delays w.
Proof.
  unfold tell. destruct (onConnectionStatusChange (this w)); [|reflexivity].
  rewrite reconnect_delays_emit. apply app_nil_r.
Qed.

(** The loop of [processMessageQueue] leaves as soon as the queue is
    empty, and the length of the queue is fuel enough to get there. *)
Lemma processMessageQueue_loop_enough fuel :
  forall w, List.length (messageQueue (this w)) <= fuel ->
            processMessageQueue_loop fuel w = drained w.
Proof.
  induction fuel as [|fuel IH]; intros w Hlen; simpl.
  - destruct w as [o ts n tr]; destruct o; simpl in *.
    destruct messageQueue0; [|simpl in Hlen; lia].
    unfold drained; simpl. now rewrite app_nil_r.
  - destruct (messageQueue (this w)) as [|m rest] eqn:Hq.
    + destruct w as [o ts n tr]; destruct o; simpl in *. subst.
      unfold drained; simpl. now rewrite app_nil_r.
    + rewrite IH by (simpl in *; lia).
      unfold drained; simpl. rewrite Hq. simpl.
      now rewrite <- app_assoc.
Qed.

Lemma processMessageQueue_eq w : processMessageQueue w = drained w.
Proof.
  unfold processMessageQueue. now apply processMessageQueue_loop_enough.
Qed.

Lemma processMessageQueue_empties w :
  messageQueue (this (processMessageQueue w)) = [].
Proof. now rewrite processMessageQueue_eq. Qed.

Lemma drained_transmitted w :
  transmitted (drained w) = transmitted w ++ messageQueue (this w).
Proof.
  unfold transmitted, drained; simpl.
  now rewrite flat_map_app, transmitted_map_Sent.
Qed.

(** [connect] when the listener takes 'connected': the [try] runs to its
    end. *)
Lemma connect_succeeds userId w :
  listener_on Connected w = Returns ->
  connect userId w =
  Returned tt
    (processMessageQueue
       (startHeartbeat (tell Connected (on_this (set_currentUser userId) w)))).
Proof.
  intros Hok. unfold connect, connect_try, try_catch, bind, lift.
  rewrite notifyStatus_eq.
  replace (listener_on Connected (on_this (set_currentUser userId) w))
    with (listener_on Connected w) by reflexivity.
  now rewrite Hok.
Qed.

(** [connect] when the [try] throws and the listener takes
    'disconnected': the [catch] runs to its end. *)
Lemma connect_fails userId w :
  listener_on Connected w = Throws ->
  listener_on Disconnected w = Returns ->
  connect userId w =
  Returned tt
    (scheduleReconnect
       (tell Disconnected
          (emit (ConsoleError "Failed to connect to realtime service:")
             (tell Connected (on_this (set_currentUser userId) w))))).
Proof.
  intros Hko Hok.
  unfold connect, connect_try, connect_catch, try_catch, bind, lift.
  rewrite notifyStatus_eq.
  replace (listener_on Connected (on_this (set_currentUser userId) w))
    with (listener_on Connected w) by reflexivity.
  rewrite Hko, notifyStatus_eq.
  match goal with
  | |- context [listener_on Disconnected ?x] =>
      replace (listener_on Disconnected x) with (listener_on Disconnected w)
  end.
  - now rewrite Hok.
  - unfold listener_on. simpl. now rewrite tell_this.
Qed.

(* ================================================================== *)
(** ** Relations carried through the exception monad *)

Section Respects.
Variable R : Runtime -> Runtime -> Prop.
Hypothesis R_refl : forall w, R w w.
Hypothesis R_trans : forall a b c, R a b -> R b c -> R a c.

Lemma respects_ret {A} (a : A) : respects R (ret a).
Proof. intros w. apply R_refl. Qed.

Lemma respects_throw {A} : respects R (@throw A).
Proof. intros w. apply R_refl. Qed.

Lemma respects_lift f : (forall w, R w (f w)) -> respects R (lift f).
Proof. intros Hf w. apply Hf. Qed.

Lemma respects_bind {A B} (m : Action A) (k : A -> Action B) :
  respects R m -> (forall a, respects R (k a)) -> respects R (bind m k).
Proof.
  intros Hm Hk w. unfold bind.
  specialize (Hm w). destruct (m w) as [a w1|w1]; simpl in *.
  - eapply R_trans; [exact Hm | apply Hk].
  - exact Hm.
Qed.

Lemma respects_try_catch {A} (body handler : Action A) :
  respects R body -> respects R handler -> respects R (try_catch body handler).
Proof.
  intros Hb Hh w. unfold try_catch.
  specialize (Hb w). destruct (body w) as [a w1|w1]; simpl in *.
  - exact Hb.
  - eapply R_trans; [exact Hb | apply Hh].
Qed.
End Respects.

(* ------------------------------------------------------------------ *)
(** *** Timer tables *)

Lemma wf_same w w' :
  timers w' = timers w -> nextTimer w' = nextTimer w ->
  wf_timers w -> wf_timers w'.
Proof. unfold wf_timers. intros -> ->. auto. Qed.

Lemma wf_register rep ms cb w :
  wf_timers w -> wf_timers (snd (register rep ms cb w)).
Proof.
  intros [Hnd Hlt]. unfold wf_timers; simpl. split.
  - rewrite map_app. simpl. apply NoDup_app; auto.
    + repeat constructor. intros [].
    + intros id Hin [Heq|[]]. subst id.
      apply in_map_iff in Hin. destruct Hin as [t [Hid Hin]].
      rewrite Forall_forall in Hlt. specialize (Hlt t Hin). lia.
  - apply Forall_app. split.
    + eapply Forall_impl; [|exact Hlt]. simpl. intros; lia.
    + repeat constructor.
Qed.

Lemma drop_timer_handles_unique id (ts : list Timer) :
  NoDup (map timer_id ts) -> NoDup (map timer_id (drop_timer id ts)).
Proof.
  unfold drop_timer. intros Hnd.
  induction ts as [|t ts IH]; simpl in *; [constructor|].
  apply NoDup_cons_iff in Hnd. destruct Hnd as [Hfresh Hrest].
  destruct (negb (Nat.eqb (timer_id t) id)); simpl; [|now apply IH].
  apply NoDup_cons; [|now apply IH].
  intros Hin. apply Hfresh.
  apply in_map_iff in Hin. destruct Hin as (t' & Hid & Hin).
  apply filter_In in Hin. rewrite <- Hid. apply in_map. tauto.
Qed.

Lemma wf_drop id w :
  wf_timers w ->
  wf_timers (mkRuntime (this w) (drop_timer id (timers w)) (nextTimer w) (trace w)).
Proof.
  intros [Hnd Hlt]. unfold wf_timers, drop_timer; simpl. split.
  - now apply drop_timer_handles_unique.
  - rewrite Forall_forall in *. intros t Hin.
    apply filter_In in Hin. apply Hlt. tauto.
Qed.

(* ------------------------------------------------------------------ *)
(** *** [evolves] is a preorder kept by every primitive *)

Lemma evolves_refl w : evolves w w.
Proof.
  constructor; try lia; auto. exists []. now rewrite app_nil_r.
Qed.

Lemma evolves_trans a b c : evolves a b -> evolves b c -> evolves a c.
Proof.
  intros [m1 o1 c1 n1 q1 [e1 t1] f1] [m2 o2 c2 n2 q2 [e2 t2] f2].
  constructor; try lia; auto.
  - destruct q2 as [q2|q2]; [rewrite q2; exact q1 | now right].
  - exists (e1 ++ e2). now rewrite t2, t1, app_assoc.
Qed.

(** A step that touches neither the counter, the budget nor the queue
    and logs no reconnect timeout. *)
Lemma evolves_quiet w w' es :
  reconnectAttempts (this w') = reconnectAttempts (this w) ->
  maxReconnectAttempts (this w') = maxReconnectAttempts (this w) ->
  messageQueue (this w') = messageQueue (this w) \/ messageQueue (this w') = [] ->
  trace w' = trace w ++ es ->
  Forall (fun e => match e with SetTimeout _ _ Reconnect => False | _ => True end) es ->
  (wf_timers w -> wf_timers w') ->
  evolves w w'.
Proof.
  intros Ha Hm Hq Ht Hes Hwf.
  assert (Hd : reconnect_delays w' = reconnect_delays w).
  { unfold reconnect_delays. rewrite Ht, flat_map_app.
    rewrite <- app_nil_r. f_equal. clear Ht.
    induction Hes as [|e es He _ IH]; [reflexivity|]. simpl. rewrite IH.
    destruct e; try reflexivity. destruct cb; simpl in *; tauto. }
  constructor; try lia; auto.
  - rewrite Hd. lia.
  - now exists es.
Qed.

Lemma evolves_emit e w :
  match e with SetTimeout _ _ Reconnect => False | _ => True end ->
  evolves w (emit e w).
Proof.
  intros He. apply evolves_quiet with (es := [e]); auto.
Qed.

Lemma evolves_tell st w : evolves w (tell st w).
Proof.
  unfold tell. destruct (onConnectionStatusChange (this w)).
  - now apply evolves_emit.
  - apply evolves_refl.
Qed.

(** Assignments to the fields the relation does not mention. *)
Lemma evolves_on_this f w :
  (forall o, reconnectAttempts (f o) = reconnectAttempts o) ->
  (forall o, maxReconnectAttempts (f o) = maxReconnectAttempts o) ->
  (forall o, messageQueue (f o) = messageQueue o) ->
  evolves w (on_this f w).
Proof.
  intros Ha Hm Hq.
  apply evolves_quiet with (es := []); simpl; auto. now rewrite app_nil_r.
Qed.

Lemma evolves_startHeartbeat w : evolves w (startHeartbeat w).
Proof.
  apply evolves_quiet with (es := [SetInterval (nextTimer w) 30000 Heartbeat]);
    simpl; auto.
  apply (wf_register true 30000 Heartbeat w).
Qed.

Lemma evolves_drained w : evolves w (drained w).
Proof.
  apply evolves_quiet with (es := map Sent (messageQueue (this w)));
    simpl; auto.
  induction (messageQueue (this w)); simpl; auto.
Qed.

Lemma evolves_processMessageQueue w : evolves w (processMessageQueue w).
Proof. rewrite processMessageQueue_eq. apply evolves_drained. Qed.

Lemma evolves_drop id w :
  evolves w (mkRuntime (this w) (drop_timer id (timers w)) (nextTimer w) (trace w)).
Proof.
  apply evolves_quiet with (es := []); simpl; auto.
  - now rewrite app_nil_r.
  - apply wf_drop.
Qed.

Lemma evolves_clearInterval id w : evolves w (clearInterval id w).
Proof.
  apply evolves_quiet with (es := [ClearInterval id]); simpl; auto.
  apply (wf_drop id w).
Qed.

Lemma evolves_scheduleReconnect w : evolves w (scheduleReconnect w).
Proof.
  unfold scheduleReconnect.
  destruct (reconnectAttempts (this w) <? maxReconnectAttempts (this w)) eqn:Hlt.
  - apply Nat.ltb_lt in Hlt.
    constructor; simpl; try lia; auto.
    + unfold reconnect_delays; simpl. rewrite flat_map_snoc, length_app.
      simpl. lia.
    + eauto.
    + intros Hwf.
      apply (wf_register false
               (Z.min (1000 * 2 ^ Z.of_nat (S (reconnectAttempts (this w)))) 30000)
               Reconnect
               (on_this (fun o => set_reconnectAttempts (S (reconnectAttempts o)) o) w)).
      exact Hwf.
  - apply evolves_refl.
Qed.

Lemma evolves_sendRealtimeMessage m w : evolves w (sendRealtimeMessage m w).
Proof. now apply evolves_emit. Qed.

(* ================================================================== *)
(** ** Closed forms of the senders *)

Lemma sendMessage_eq h content recipientPublicKey key mt fd w :
  sendMessage h content recipientPublicKey key mt fd w =
  match envelope (currentUser (this w))
          (mkSendCall h content recipientPublicKey key mt fd) with
  | Some m => Returned (nanoid h) (sendRealtimeMessage m w)
  | None => Thrown (emit (ConsoleError "Failed to send message:") w)
  end.
Proof.
  unfold sendMessage, envelope, try_catch; simpl.
  destruct (encrypted h) as [[enc nonce]|].
  - now rewrite isConnected_true.
  - reflexivity.
Qed.

Lemma send_eq c w :
  send c w =
  match envelope (currentUser (this w)) c with
  | Some m => sendRealtimeMessage m w
  | None => emit (ConsoleError "Failed to send message:") w
  end.
Proof.
  unfold send. destruct c as [h content r key mt fd]; simpl.
  rewrite sendMessage_eq.
  now destruct (envelope (currentUser (this w)) (mkSendCall h content r key mt fd)).
Qed.

Lemma sendTypingIndicator_eq h r t w :
  sendTypingIndicator h r t w =
  sendRealtimeMessage
    (mkRealtimeMessage (nanoid h) typing (currentUser (this w)) r
       (TypingData t) (now h) None) w.
Proof. unfold sendTypingIndicator. now rewrite isConnected_true. Qed.

Lemma updatePresence_eq h st w :
  updatePresence h st w =
  sendRealtimeMessage
    (mkRealtimeMessage (nanoid h) presence (currentUser (this w)) "broadcast"
       (PresencePayload st (now h) (userAgent h)) (now' h) None) w.
Proof. unfold updatePresence. now rewrite isConnected_true. Qed.

Lemma sendDeliveryReceipt_eq h m s w :
  sendDeliveryReceipt h m s w =
  sendRealtimeMessage
    (mkRealtimeMessage (nanoid h) delivery_receipt (currentUser (this w)) s
       (ReceiptData m (now h)) (now' h) None) w.
Proof. unfold sendDeliveryReceipt. now rewrite isConnected_true. Qed.

Lemma sendReadReceipt_eq h m s w :
  sendReadReceipt h m s w =
  sendRealtimeMessage
    (mkRealtimeMessage (nanoid h) read_receipt (currentUser (this w)) s
       (ReceiptData m (now h)) (now' h) None) w.
Proof. unfold sendReadReceipt. now rewrite isConnected_true. Qed.

(** A run of sends hands its envelopes to the transport in call order
    and touches nothing of the object. *)
Lemma send_all_this cs : forall w, this (send_all cs w) = this w.
Proof.
  induction cs as [|c cs IH]; intros w; simpl; [reflexivity|].
  rewrite IH, send_eq.
  now destruct (envelope (currentUser (this w)) c).
Qed.

Lemma send_all_transmitted cs :
  forall w, transmitted (send_all cs w) =
            transmitted w ++ envelopes (currentUser (this w)) cs.
Proof.
  induction cs as [|c cs IH]; intros w; simpl.
  - now rewrite app_nil_r.
  - rewrite IH, send_eq. unfold envelopes at 2. simpl.
    destruct (envelope (currentUser (this w)) c) as [m|]; simpl.
    + unfold sendRealtimeMessage. rewrite transmitted_emit.
      now rewrite <- app_assoc.
    + now rewrite transmitted_emit, app_nil_r.
Qed.

(* ================================================================== *)
(** ** Every call evolves the runtime *)

(** Splits a method along its monadic structure. *)
Ltac evolve :=
  repeat match goal with
         | |- respects _ (bind _ _) =>
             apply (respects_bind evolves evolves_trans); [|intros ?]
         | |- respects _ (try_catch _ _) =>
             apply (respects_try_catch evolves evolves_trans)
         | |- respects _ (lift _) =>
             apply (respects_lift evolves); intros ?
         | |- respects _ throw =>
             apply (respects_throw evolves evolves_refl)
         | |- respects _ (ret _) =>
             apply (respects_ret evolves evolves_refl)
         end.

Lemma evolves_notifyStatus st : respects evolves (notifyStatus st).
Proof.
  intros w. rewrite notifyStatus_eq.
  destruct (listener_on st w); apply evolves_tell.
Qed.

Lemma evolves_notifyMessage m : respects evolves (notifyMessage m).
Proof.
  intros w. unfold notifyMessage.
  destruct (onMessageReceived (this w)) as [handler|]; [|apply evolves_refl].
  destruct (handler m); simpl; now apply evolves_emit.
Qed.

Lemma evolves_connect userId : respects evolves (connect userId).
Proof.
  unfold connect, connect_try, connect_catch. evolve.
  - now apply evolves_on_this.
  - apply evolves_notifyStatus.
  - apply evolves_startHeartbeat.
  - apply evolves_processMessageQueue.
  - now apply evolves_emit.
  - apply evolves_notifyStatus.
  - apply evolves_scheduleReconnect.
Qed.

Lemma evolves_disconnect : respects evolves disconnect.
Proof.
  unfold disconnect. evolve.
  - destruct (socket (this w)); [|apply evolves_refl].
    eapply evolves_trans; [apply (evolves_emit SocketDisconnect); exact I|].
    now apply evolves_on_this.
  - destruct (heartbeatInterval (this w)) as [id|]; [|apply evolves_refl].
    eapply evolves_trans; [apply evolves_clearInterval|].
    now apply evolves_on_this.
  - apply evolves_notifyStatus.
Qed.

Lemma evolves_send c w : evolves w (send c w).
Proof.
  rewrite send_eq. destruct (envelope (currentUser (this w)) c).
  - apply evolves_sendRealtimeMessage.
  - now apply evolves_emit.
Qed.

Lemma evolves_run_callback h cb : respects evolves (run_callback h cb).
Proof.
  destruct cb; simpl.
  - evolve; [apply evolves_notifyStatus | apply evolves_startHeartbeat].
  - intros w.
    destruct (random_gt_095 h && truthy (currentUser (this w))).
    + apply evolves_notifyMessage.
    + apply evolves_refl.
  - intros w. rewrite isConnected_true, updatePresence_eq. simpl.
    apply evolves_sendRealtimeMessage.
  - evolve; [apply evolves_notifyStatus|].
    intros w. simpl. apply evolves_connect.
Qed.

Lemma evolves_fire h id : respects evolves (fire h id).
Proof.
  intros w. unfold fire.
  destruct (find (fun t => Nat.eqb (timer_id t) id) (timers w)) as [t|];
    [|apply evolves_refl].
  destruct (repeats t).
  - apply evolves_run_callback.
  - eapply evolves_trans; [apply evolves_drop | apply evolves_run_callback].
Qed.

Lemma evolves_step c w : evolves w (step c w).
Proof.
  destruct c; simpl.
  - apply evolves_connect.
  - apply evolves_disconnect.
  - apply evolves_send.
  - rewrite sendTypingIndicator_eq. apply evolves_sendRealtimeMessage.
  - rewrite updatePresence_eq. apply evolves_sendRealtimeMessage.
  - rewrite sendDeliveryReceipt_eq. apply evolves_sendRealtimeMessage.
  - rewrite sendReadReceipt_eq. apply evolves_sendRealtimeMessage.
  - now apply evolves_on_this.
  - now apply evolves_on_this.
  - apply evolves_fire.
Qed.

Lemma evolves_run cs : forall w, evolves w (run cs w).
Proof.
  induction cs as [|c cs IH]; intros w; simpl.
  - apply evolves_refl.
  - eapply evolves_trans; [apply evolves_step | apply IH].
Qed.

(* ================================================================== *)
(** ** Failed connects and the reconnect timer *)

Lemma listener_on_same st w w' :
  onConnectionStatusChange (this w') = onConnectionStatusChange (this w) ->
  listener_on st w' = listener_on st w.
Proof. unfold listener_on. now intros ->. Qed.

(** What [scheduleReconnect] does, by cases on the retry budget. *)
Lemma scheduleReconnect_spec w :
  let a := reconnectAttempts (this w) in
  let w' := scheduleReconnect w in
  onConnectionStatusChange (this w') = onConnectionStatusChange (this w) /\
  maxReconnectAttempts (this w') = maxReconnectAttempts (this w) /\
  currentUser (this w') = currentUser (this w) /\
  messageQueue (this w') = messageQueue (this w) /\
  if a <? maxReconnectAttempts (this w) then
    reconnectAttempts (this w') = S a /\
    reconnect_delays w' =
      reconnect_delays w ++ [backoff_delay 1000 30000 (S a)] /\
    timers w' =
      timers w ++
      [mkTimer (nextTimer w) false (backoff_delay 1000 30000 (S a)) Reconnect]
  else w' = w.
Proof.
  unfold scheduleReconnect.
  destruct (reconnectAttempts (this w) <? maxReconnectAttempts (this w));
    simpl; repeat split; auto.
  unfold reconnect_delays; simpl. now rewrite flat_map_snoc.
Qed.

(** What a failed [connect] leaves behind. *)
Lemma connect_fails_effect userId w :
  listener_on Connected w = Throws ->
  listener_on Disconnected w = Returns ->
  let a := reconnectAttempts (this w) in
  let w' := final (connect userId w) in
  returned (connect userId w) = true /\
  onConnectionStatusChange (this w') = onConnectionStatusChange (this w) /\
  maxReconnectAttempts (this w') = maxReconnectAttempts (this w) /\
  currentUser (this w') = userId /\
  messageQueue (this w') = messageQueue (this w) /\
  notifications w' =
    notifications w ++ [Connected; Disconnected] /\
  transmitted w' = transmitted w /\
  if a <? maxReconnectAttempts (this w) then
    reconnectAttempts (this w') = S a /\
    reconnect_delays w' =
      reconnect_delays w ++ [backoff_delay 1000 30000 (S a)] /\
    timers w' =
      timers w ++
      [mkTimer (nextTimer w) false (backoff_delay 1000 30000 (S a)) Reconnect]
  else
    reconnectAttempts (this w') = a /\
    reconnect_delays w' = reconnect_delays w /\
    timers w' = timers w.
Proof.
  intros Hko Hok. simpl.
  rewrite (connect_fails userId w Hko Hok). simpl.
  assert (Hsome : exists handler,
             onConnectionStatusChange (this w) = Some handler).
  { unfold listener_on in Hko.
    destruct (onConnectionStatusChange (this w)); [eauto | discriminate]. }
  destruct Hsome as [handler Hh].
  set (w0 := on_this (set_currentUser userId) w).
  assert (H1 : tell Connected w0 = emit (StatusChange Connected) w0).
  { unfold tell. subst w0. simpl. now rewrite Hh. }
  rewrite H1.
  set (w1 := emit (ConsoleError "Failed to connect to realtime service:")
               (emit (StatusChange Connected) w0)).
  assert (H2 : tell Disconnected w1 = emit (StatusChange Disconnected) w1).
  { unfold tell. subst w1 w0. simpl. now rewrite Hh. }
  rewrite H2.
  set (w2 := emit (StatusChange Disconnected) w1).
  pose proof (scheduleReconnect_spec w2) as Hs. simpl in Hs.
  destruct Hs as (Hl & Hm & Hu & Hq & Hcase).
  assert (Hn : notifications w2 = notifications w ++ [Connected; Disconnected]).
  { subst w2 w1 w0. rewrite !notifications_emit. simpl.
    rewrite app_nil_r, <- app_assoc. reflexivity. }
  assert (Ht : transmitted w2 = transmitted w).
  { subst w2 w1 w0. rewrite !transmitted_emit. simpl.
    now rewrite !app_nil_r. }
  assert (Hd : reconnect_delays w2 = reconnect_delays w).
  { subst w2 w1 w0. rewrite !reconnect_delays_emit. simpl.
    now rewrite !app_nil_r. }
  assert (Hev : exists es, trace (scheduleReconnect w2) = trace w2 ++ es /\
                  Forall (fun e => match e with
                                   | StatusChange _ | Sent _ => False
                                   | _ => True end) es).
  { unfold scheduleReconnect.
    destruct (reconnectAttempts (this w2) <? maxReconnectAttempts (this w2)).
    - simpl. eexists; split; [reflexivity|]. repeat constructor.
    - exists []. split; [now rewrite app_nil_r | constructor]. }
  destruct Hev as (es & Hes & Hquiet).
  assert (Hobs : notifications (scheduleReconnect w2) = notifications w2 /\
                 transmitted (scheduleReconnect w2) = transmitted w2).
  { unfold notifications, notifications_of, transmitted.
    rewrite Hes, !flat_map_app.
    assert (Hnil : flat_map (fun e => match e with StatusChange st => [st] | _ => [] end) es = [] /\
                   flat_map (fun e => match e with Sent m => [m] | _ => [] end) es = []).
    { clear Hes. induction Hquiet as [|e es He _ [IH1 IH2]]; [split; reflexivity|].
      simpl. rewrite IH1, IH2. destruct e; simpl in He; try tauto; auto. }
    destruct Hnil as [-> ->]. now rewrite !app_nil_r. }
  destruct Hobs as [Hn' Ht'].
  repeat split; try congruence.
  replace (reconnectAttempts (this w2)) with (reconnectAttempts (this w)) in Hcase
    by reflexivity.
  replace (maxReconnectAttempts (this w2)) with (maxReconnectAttempts (this w)) in Hcase
    by reflexivity.
  destruct (reconnectAttempts (this w) <? maxReconnectAttempts (this w)).
  - destruct Hcase as (Ha & Hdel & Htim). rewrite Ha, Hdel, Htim, Hd.
    repeat split.
  - rewrite Hcase. repeat split. exact Hd.
Qed.

Lemma always_failing_same w w' :
  onConnectionStatusChange (this w') = onConnectionStatusChange (this w) ->
  always_failing w -> always_failing w'.
Proof.
  intros Hsame (H1 & H2 & H3). unfold always_failing.
  now rewrite !(listener_on_same _ w w' Hsame).
Qed.

Lemma connect_one_failure userId w :
  always_failing w -> one_failure w (final (connect userId w)).
Proof.
  intros (Hko & Hok & _).
  pose proof (connect_fails_effect userId w Hko Hok) as H. simpl in H.
  destruct H as (_ & Hl & Hm & _ & _ & _ & _ & Hcase).
  unfold one_failure. split; [exact Hl|]. split; [exact Hm|]. split.
  - apply (ev_timers _ _ (evolves_connect userId w)).
  - destruct (reconnectAttempts (this w) <? maxReconnectAttempts (this w)).
    + destruct Hcase as (Ha & Hd & Ht). repeat split; auto.
      unfold pending_reconnects. rewrite Ht, filter_app. simpl.
      intros Hnil. apply app_eq_nil in Hnil. destruct Hnil; discriminate.
    + tauto.
Qed.

Lemma find_by_id (ts : list Timer) (t : Timer) :
  NoDup (map timer_id ts) -> In t ts ->
  find (fun t' => Nat.eqb (timer_id t') (timer_id t)) ts = Some t.
Proof.
  induction ts as [|a ts IH]; simpl; intros Hnd Hin; [contradiction|].
  inversion Hnd as [|? ? Hnotin Hnd']; subst.
  destruct Hin as [->|Hin].
  - now rewrite Nat.eqb_refl.
  - destruct (Nat.eqb (timer_id a) (timer_id t)) eqn:E.
    + apply Nat.eqb_eq in E. exfalso. apply Hnotin. rewrite E.
      now apply in_map.
    + now apply IH.
Qed.

Lemma pending_head w t rest :
  pending_reconnects w = t :: rest ->
  In t (timers w) /\ callback t = Reconnect.
Proof.
  intros Hp.
  assert (Hin : In t (pending_reconnects w)) by (rewrite Hp; now left).
  apply filter_In in Hin. destruct Hin as [Hin Hr]. split; [exact Hin|].
  unfold is_reconnect in Hr. now destruct (callback t).
Qed.

(** Firing a pending reconnect timeout announces 'reconnecting' and
    calls [connect] with the current user. *)
Lemma fire_reconnect h w t rest :
  wf_timers w ->
  pending_reconnects w = t :: rest ->
  listener_on Reconnecting w = Returns ->
  exists w0,
    this w0 = this w /\ trace w0 = trace w /\ (wf_timers w -> wf_timers w0) /\
    final (fire h (timer_id t) w) =
    final (connect (currentUser (this w)) (tell Reconnecting w0)).
Proof.
  intros Hwf Hp Hok.
  destruct (pending_head w t rest Hp) as [Hin Hcb].
  unfold fire. rewrite (find_by_id (timers w) t (proj1 Hwf) Hin), Hcb.
  simpl. unfold bind.
  destruct (repeats t).
  - exists w. split; [reflexivity|]. split; [reflexivity|]. split; [auto|].
    rewrite notifyStatus_eq, Hok. simpl. now rewrite tell_this.
  - eexists. split; [|split; [|split]]; cycle 3.
    + rewrite notifyStatus_eq.
      rewrite (listener_on_same Reconnecting w) by reflexivity.
      rewrite Hok. simpl. rewrite tell_this. reflexivity.
    + reflexivity.
    + reflexivity.
    + intros _. now apply wf_drop.
Qed.

Lemma fire_one_failure h w t rest :
  wf_timers w ->
  pending_reconnects w = t :: rest ->
  always_failing w ->
  one_failure w (final (fire h (timer_id t) w)).
Proof.
  intros Hwf Hp Hfail.
  destruct (fire_reconnect h w t rest Hwf Hp (proj2 (proj2 Hfail)))
    as (w0 & Hthis & Htrace & Hwf0 & ->).
  set (w1 := tell Reconnecting w0).
  assert (Hthis1 : this w1 = this w)
    by (subst w1; now rewrite tell_this).
  assert (Hfail1 : always_failing w1).
  { apply (always_failing_same w); [now rewrite Hthis1 | exact Hfail]. }
  pose proof (connect_one_failure (currentUser (this w)) w1 Hfail1) as H.
  unfold one_failure in *. rewrite Hthis1 in H.
  destruct H as (Hl & Hm & Hw & Hcase).
  assert (Hd : reconnect_delays w1 = reconnect_delays w).
  { subst w1. rewrite tell_reconnect_delays.
    unfold reconnect_delays. now rewrite Htrace. }
  rewrite Hd in Hcase.
  split; [exact Hl|]. split; [exact Hm|]. split; [|exact Hcase].
  intros _. apply Hw. subst w1.
  apply (wf_same w0); [apply tell_timers | apply tell_nextTimer | auto].
Qed.

(** The delays scheduled by a run of failing retries: one for each
    failure while the budget lasts, each the back-off of its count. *)
Lemma retries_delays h n :
  forall w,
    wf_timers w -> always_failing w ->
    (pending_reconnects w = [] ->
     maxReconnectAttempts (this w) <= reconnectAttempts (this w)) ->
    reconnect_delays (retries h n w) =
    reconnect_delays w ++
    map (backoff_delay 1000 30000)
      (seq (S (reconnectAttempts (this w)))
         (Nat.min n (maxReconnectAttempts (this w) - reconnectAttempts (this w)))).
Proof.
  induction n as [|n IH]; intros w Hwf Hfail Hidle; simpl retries.
  - simpl. now rewrite app_nil_r.
  - destruct (pending_reconnects w) as [|t rest] eqn:Hp.
    + specialize (Hidle eq_refl).
      replace (maxReconnectAttempts (this w) - reconnectAttempts (this w))
        with 0 by lia.
      rewrite Nat.min_0_r. simpl. now rewrite app_nil_r.
    + pose proof (fire_one_failure h w t rest Hwf Hp Hfail) as Hone.
      set (w' := final (fire h (timer_id t) w)) in *.
      destruct Hone as (Hl & Hm & Hw & Hcase).
      assert (Hfail' : always_failing w')
        by (apply (always_failing_same w); auto).
      destruct (reconnectAttempts (this w) <? maxReconnectAttempts (this w))
        eqn:Hlt.
      * apply Nat.ltb_lt in Hlt. destruct Hcase as (Ha & Hd & Hpend).
        rewrite IH; auto; [|intros Hnil; contradiction].
        rewrite Hd, Hm, Ha, <- app_assoc. f_equal.
        replace (maxReconnectAttempts (this w) - reconnectAttempts (this w))
          with (S (maxReconnectAttempts (this w) - S (reconnectAttempts (this w))))
          by lia.
        reflexivity.
      * apply Nat.ltb_ge in Hlt. destruct Hcase as (Ha & Hd).
        rewrite IH; auto; [|intros _; lia].
        rewrite Hd, Hm, Ha.
        replace (maxReconnectAttempts (this w) - reconnectAttempts (this w))
          with 0 by lia.
        now rewrite !Nat.min_0_r.
Qed.

(** The back-off grows with the attempt number and stops at the cap. *)
Lemma backoff_delay_mono base cap a b :
  (0 <= base)%Z -> a <= b ->
  (backoff_delay base cap a <= backoff_delay base cap b)%Z.
Proof.
  intros Hbase Hab. unfold backoff_delay.
  apply Z.min_le_compat_r.
  apply Z.mul_le_mono_nonneg_l; [exact Hbase|].
  apply Z.pow_le_mono_r; lia.
Qed.

Lemma backoff_delay_bounded base cap a :
  (backoff_delay base cap a <= cap)%Z.
Proof. unfold backoff_delay. apply Z.le_min_r. Qed.

Lemma backoff_run_sorted base cap len :
  (0 <= base)%Z ->
  forall start,
    StronglySorted Z.le (map (backoff_delay base cap) (seq start len)).
Proof.
  intros Hbase. induction len as [|len IH]; intros start; simpl; constructor.
  - apply IH.
  - apply Forall_forall. intros d Hin.
    apply in_map_iff in Hin. destruct Hin as [k [<- Hk]].
    apply in_seq in Hk. apply backoff_delay_mono; [exact Hbase | lia].
Qed.

(* ================================================================== *)
(** ** Successful connects and disconnects *)

Lemma startHeartbeat_transmitted w :
  transmitted (startHeartbeat w) = transmitted w.
Proof.
  unfold transmitted, startHeartbeat; simpl.
  rewrite flat_map_snoc. apply app_nil_r.
Qed.

(** A connect whose listener takes 'connected' hands the whole queue to
    the transport, oldest first, and leaves it empty. *)
Lemma connect_drains userId w :
  listener_on Connected w = Returns ->
  let w' := final (connect userId w) in
  messageQueue (this w') = [] /\
  transmitted w' = transmitted w ++ messageQueue (this w) /\
  currentUser (this w') = userId /\
  reconnectAttempts (this w') = reconnectAttempts (this w).
Proof.
  intros Hok. simpl. rewrite (connect_succeeds userId w Hok). simpl.
  rewrite processMessageQueue_eq. repeat split.
  - rewrite drained_transmitted, startHeartbeat_transmitted, tell_transmitted.
    simpl. now rewrite tell_this.
  - simpl. now rewrite tell_this.
  - simpl. now rewrite tell_this.
Qed.

(** What [disconnect] leaves untouched, and what it does to the timers. *)
Lemma disconnect_frame w :
  let w' := final (disconnect w) in
  messageQueue (this w') = messageQueue (this w) /\
  currentUser (this w') = currentUser (this w) /\
  reconnectAttempts (this w') = reconnectAttempts (this w) /\
  onConnectionStatusChange (this w') = onConnectionStatusChange (this w) /\
  transmitted w' = transmitted w /\
  socket (this w') = None /\
  heartbeatInterval (this w') = None /\
  timers w' =
    match heartbeatInterval (this w) with
    | Some id => drop_timer id (timers w)
    | None => timers w
    end.
Proof.
  destruct w as [[sock u q a m hb om oc] ts n tr].
  unfold disconnect, bind, lift, notifyStatus, transmitted. simpl.
  destruct sock, hb, oc as [handler|]; simpl;
    try destruct (handler Disconnected); simpl;
    rewrite ?flat_map_app; simpl; rewrite ?app_nil_r;
    repeat split; reflexivity.
Qed.

(* ================================================================== *)
(** ** The claims *)

(** C9.  [isConnected] answers [true] whatever the socket is, also when
    there is none.  So every [sendMessage] that gets as far as the test
    hands its envelope to the transport at once and no [sendMessage]
    ever changes the queue; and each of the four signalling senders
    passes its guard and sends. *)
Theorem isConnected_is_hardwired (w : Runtime) :
  isConnected w = true /\
  (forall h content recipientPublicKey key mt fd,
      sendMessage h content recipientPublicKey key mt fd w =
      match encrypted h with
      | Some (enc, nonce) =>
          Returned (nanoid h)
            (sendRealtimeMessage
               (mkRealtimeMessage (nanoid h) message (currentUser (this w))
                  recipientPublicKey
                  (MessageData (nanoid h) enc nonce mt fd (now h))
                  (now' h) None) w)
      | None => Thrown (emit (ConsoleError "Failed to send message:") w)
      end) /\
  (forall h content recipientPublicKey key mt fd,
      messageQueue
        (this (final (sendMessage h content recipientPublicKey key mt fd w))) =
      messageQueue (this w)) /\
  (forall h r t,
      sendTypingIndicator h r t w =
      sendRealtimeMessage
        (mkRealtimeMessage (nanoid h) typing (currentUser (this w)) r
           (TypingData t) (now h) None) w) /\
  (forall h st,
      updatePresence h st w =
      sendRealtimeMessage
        (mkRealtimeMessage (nanoid h) presence (currentUser (this w))
           "broadcast" (PresencePayload st (now h) (userAgent h))
           (now' h) None) w) /\
  (forall h m s,
      sendDeliveryReceipt h m s w =
      sendRealtimeMessage
        (mkRealtimeMessage (nanoid h) delivery_receipt (currentUser (this w))
           s (ReceiptData m (now h)) (now' h) None) w) /\
  (forall h m s,
      sendReadReceipt h m s w =
      sendRealtimeMessage
        (mkRealtimeMessage (nanoid h) read_receipt (currentUser (this w))
           s (ReceiptData m (now h)) (now' h) None) w).
Proof.
  split; [apply isConnected_true|].
  split.
  { intros. rewrite sendMessage_eq. unfold envelope; simpl.
    now destruct (encrypted h) as [[enc nonce]|]. }
  split.
  { intros. rewrite sendMessage_eq.
    now destruct (envelope _ _). }
  split; [intros; apply sendTypingIndicator_eq|].
  split; [intros; apply updatePresence_eq|].
  split; [intros; apply sendDeliveryReceipt_eq|].
  intros; apply sendReadReceipt_eq.
Qed.

(** C1, as the specification words it, fails: two sends on a fresh
    service, which has no socket, leave the queue empty. *)
Lemma sends_are_not_queued :
  ~ queued_in_call_order [hi_bob; again_bob] new_RealtimeService.
Proof.
  intros H. specialize (H eq_refl). vm_compute in H. discriminate.
Qed.

(** C1, amended.  Sends never reach the queue: whatever the socket
    state, a run of sends leaves the queue as it was and hands its
    envelopes to the transport in call order.  A connect whose listener
    takes 'connected' hands over what the queue holds, oldest first, and
    empties it, so that envelopes sent afterwards follow the queued ones.
    No sequence of calls makes the queue grow: it keeps its content or
    is emptied. *)
Theorem sends_bypass_the_queue
    (cs : list SendCall) (calls : list Call) (userId : option string)
    (w : Runtime) :
  listener_on Connected w = Returns ->
  messageQueue (this (send_all cs w)) = messageQueue (this w) /\
  transmitted (send_all cs w) =
    transmitted w ++ envelopes (currentUser (this w)) cs /\
  messageQueue (this (final (connect userId w))) = [] /\
  transmitted (final (connect userId w)) =
    transmitted w ++ messageQueue (this w) /\
  transmitted (send_all cs (final (connect userId w))) =
    transmitted w ++ messageQueue (this w) ++ envelopes userId cs /\
  (messageQueue (this (run calls w)) = messageQueue (this w) \/
   messageQueue (this (run calls w)) = []).
Proof.
  intros Hok.
  destruct (connect_drains userId w Hok) as (Hq & Ht & Hu & _).
  split; [now rewrite send_all_this|].
  split; [apply send_all_transmitted|].
  split; [exact Hq|].
  split; [exact Ht|].
  split.
  - now rewrite send_all_transmitted, Ht, Hu, app_assoc.
  - apply (ev_queue _ _ (evolves_run calls w)).
Qed.

Lemma sends_bypass_the_queue_witness :
  listener_on Connected backlog_service = Returns /\
  transmitted
    (send_all [hi_bob; again_bob]
       (final (connect (Some "alice") backlog_service))) =
  transmitted backlog_service ++
  messageQueue (this backlog_service) ++
  envelopes (Some "alice") [hi_bob; again_bob].
Proof.
  split; [reflexivity|].
  apply (sends_bypass_the_queue [hi_bob; again_bob] [] (Some "alice")
           backlog_service eq_refl).
Defined.

(** C5, as the specification words it, fails: on a fresh service, which
    has no socket, a typing signal is not dropped. *)
Lemma signals_are_not_dropped :
  ~ dropped_when_not_connected host_a "bob" true online new_RealtimeService.
Proof.
  intros H. destruct (H eq_refl) as [H1 _].
  vm_compute in H1. discriminate.
Qed.

(** C5, amended.  [sendTypingIndicator] and [updatePresence] add nothing
    to the queue, indeed they leave every field of the object and every
    timer as they were, so no later connect transmits the signal; but
    the signal is not dropped either: whatever the socket state, its
    envelope goes to the transport at once, exactly once. *)
Theorem signals_are_sent_at_once
    (h : Host) (recipientPublicKey : string) (isTyping : bool)
    (status : PresenceStatus) (w : Runtime) :
  let sent_typing := sendTypingIndicator h recipientPublicKey isTyping w in
  let sent_presence := updatePresence h status w in
  this sent_typing = this w /\
  timers sent_typing = timers w /\
  transmitted sent_typing =
    transmitted w ++
    [mkRealtimeMessage (nanoid h) typing (currentUser (this w))
       recipientPublicKey (TypingData isTyping) (now h) None] /\
  this sent_presence = this w /\
  timers sent_presence = timers w /\
  transmitted sent_presence =
    transmitted w ++
    [mkRealtimeMessage (nanoid h) presence (currentUser (this w)) "broadcast"
       (PresencePayload status (now h) (userAgent h)) (now' h) None].
Proof.
  simpl. rewrite sendTypingIndicator_eq, updatePresence_eq.
  unfold sendRealtimeMessage. rewrite !transmitted_emit.
  repeat split.
Qed.

(** C10.  [disconnect] does not touch the queue, and a connect that
    follows (with a listener that takes 'connected') hands the envelopes
    queued before the disconnect to the transport, oldest first, and
    leaves the queue empty. *)
Theorem disconnect_keeps_the_queue (userId : option string) (w : Runtime) :
  listener_on Connected w = Returns ->
  messageQueue (this (final (disconnect w))) = messageQueue (this w) /\
  messageQueue (this (final (connect userId (final (disconnect w))))) = [] /\
  transmitted (final (connect userId (final (disconnect w)))) =
    transmitted w ++ messageQueue (this w).
Proof.
  intros Hok.
  pose proof (disconnect_frame w) as Hd. simpl in Hd.
  destruct Hd as (Hq & _ & _ & Hl & Ht & _).
  assert (Hok' : listener_on Connected (final (disconnect w)) = Returns).
  { now rewrite (listener_on_same Connected w). }
  destruct (connect_drains userId _ Hok') as (Hq' & Ht' & _).
  split; [exact Hq|]. split; [exact Hq'|].
  now rewrite Ht', Ht, Hq.
Qed.

Lemma disconnect_keeps_the_queue_witness :
  listener_on Connected backlog_service = Returns /\
  messageQueue (this (final (disconnect backlog_service))) =
    [queued_message "q1"; queued_message "q2"] /\
  messageQueue
    (this (final (connect (Some "alice") (final (disconnect backlog_service))))) =
    [] /\
  transmitted (final (connect (Some "alice") (final (disconnect backlog_service)))) =
    transmitted backlog_service ++ messageQueue (this backlog_service).
Proof.
  split; [reflexivity|].
  apply (disconnect_keeps_the_queue (Some "alice") backlog_service eq_refl).
Defined.

(** C6, as the specification words it, fails: with a listener
    registered, two disconnects in a row notify it twice. *)
Lemma second_disconnect_notifies_again : ~ notified_once listening_service.
Proof.
  unfold notified_once. vm_compute. discriminate.
Qed.

(** C6, amended.  [disconnect] is idempotent on the state of the session:
    a second call in a row leaves every field of the object and the timer
    table as the first call left them.  The notification is not
    idempotent: all the second call does is call the listener, if there
    is one, with 'disconnected' once more. *)
Theorem disconnect_idempotent_on_state (w : Runtime) :
  let once := final (disconnect w) in
  let twice := final (disconnect once) in
  this twice = this once /\
  timers twice = timers once /\
  nextTimer twice = nextTimer once /\
  trace twice = trace once ++ heard Disconnected w /\
  notifications once = notifications w ++ notifications_of (heard Disconnected w) /\
  notifications twice =
    notifications w ++ notifications_of (heard Disconnected w)
                    ++ notifications_of (heard Disconnected w).
Proof.
  destruct w as [[sock u q a m hb om oc] ts n tr].
  unfold disconnect, bind, lift, notifyStatus, heard, notifications,
    notifications_of.
  simpl.
  destruct sock, hb, oc as [handler|]; simpl;
    try destruct (handler Disconnected) eqn:Hh; simpl; rewrite ?Hh; simpl;
    rewrite ?flat_map_app; simpl; rewrite ?app_nil_r, <- ?app_assoc;
    repeat split; reflexivity.
Qed.

(** C7, as the specification words it, fails: after a failed
    [connect("alice")] and a [disconnect], the reconnect timeout (handle
    3) is still pending, and when it fires the session announces
    'reconnecting' and connects again. *)
Lemma reconnect_timer_survives_disconnect :
  ~ silent_after_disconnect alice_failed_once.
Proof.
  intros H. specialize (H host_a 3). vm_compute in H. discriminate.
Qed.

(** C7, amended.  [disconnect] cancels one timer: the heartbeat interval
    whose handle is stored in [heartbeatInterval], and forgets the
    handle.  Every other pending timer stays scheduled; in particular
    the reconnect timeouts pending before the call are still pending
    after it (all of them, but one that would carry the very handle of
    the heartbeat). *)
Theorem disconnect_cancels_heartbeat_only (w : Runtime) :
  let w' := final (disconnect w) in
  heartbeatInterval (this w') = None /\
  timers w' =
    match heartbeatInterval (this w) with
    | Some id => drop_timer id (timers w)
    | None => timers w
    end /\
  pending_reconnects w' =
    match heartbeatInterval (this w) with
    | Some id =>
        filter (fun t => negb (Nat.eqb (timer_id t) id)) (pending_reconnects w)
    | None => pending_reconnects w
    end.
Proof.
  pose proof (disconnect_frame w) as Hd. simpl in *.
  destruct Hd as (_ & _ & _ & _ & _ & _ & Hhb & Ht).
  split; [exact Hhb|]. split; [exact Ht|].
  unfold pending_reconnects. rewrite Ht. clear Ht.
  destruct (heartbeatInterval (this w)) as [id|]; [|reflexivity].
  unfold drop_timer.
  induction (timers w) as [|t ts IH]; simpl; [reflexivity|].
  destruct (is_reconnect t) eqn:Hr, (Nat.eqb (timer_id t) id) eqn:Hid; simpl;
    rewrite ?Hr, ?Hid; simpl; now rewrite IH.
Qed.

(** C4, as the specification words it, fails: after one failed connect
    the counter is 1, and the successful connect that follows leaves it
    at 1. *)
Lemma successful_connect_does_not_reset :
  ~ reset_on_success (Some "alice") alice_recovering.
Proof.
  intros H. specialize (H eq_refl). vm_compute in H. discriminate.
Qed.

(** C4, amended.  Nothing resets the attempt counter.  A successful
    connect leaves it as it is, and over any sequence of calls and timer
    firings it never decreases, rises by exactly one for each reconnect
    timeout scheduled, and never passes the budget.  So the retries
    still available after a successful connect are the budget minus the
    failures so far, over the whole life of the service. *)
Theorem attempts_are_never_reset
    (calls : list Call) (userId : option string) (w : Runtime) :
  listener_on Connected w = Returns ->
  reconnectAttempts (this (final (connect userId w))) =
    reconnectAttempts (this w) /\
  reconnectAttempts (this w) <= reconnectAttempts (this (run calls w)) /\
  List.length (reconnect_delays (run calls w)) =
    List.length (reconnect_delays w) +
    (reconnectAttempts (this (run calls w)) - reconnectAttempts (this w)) /\
  reconnectAttempts (this (run calls w)) <=
    Nat.max (reconnectAttempts (this w)) (maxReconnectAttempts (this w)).
Proof.
  intros Hok.
  destruct (connect_drains userId w Hok) as (_ & _ & _ & Ha).
  destruct (evolves_run calls w) as [_ Hmono Hcap Hcount _ _ _].
  repeat split; auto. lia.
Qed.

Lemma attempts_are_never_reset_witness :
  listener_on Connected alice_recovering = Returns /\
  reconnectAttempts
    (this (final (connect (Some "alice") alice_recovering))) = 1 /\
  1 <= reconnectAttempts
         (this (run [CallConnect "alice"; CallDisconnect] alice_recovering)).
Proof.
  split; [reflexivity|].
  pose proof (attempts_are_never_reset [CallConnect "alice"; CallDisconnect]
                (Some "alice") alice_recovering eq_refl) as H.
  split; [exact (proj1 H) | exact (proj1 (proj2 H))].
Defined.

(** C8, as the specification words it, fails: with a listener that
    throws whatever it is told, the [try] of [connect("alice")] throws,
    the call of the listener inside the [catch] throws again, and
    [connect] rejects. *)
Lemma listener_error_escapes_connect :
  ~ failure_never_propagates (Some "alice") hostile_service.
Proof.
  intros H.
  specialize (H (emit (StatusChange Connected)
                   (on_this (set_currentUser (Some "alice")) hostile_service))
                eq_refl).
  vm_compute in H. discriminate.
Qed.

(** C8, amended.  When the [try] of [connect] throws and the status
    listener does not itself throw when told 'disconnected', the [catch]
    takes the error: [connect] returns normally, having logged the
    error, told the listener 'disconnected' and called
    [scheduleReconnect], which schedules a retry with the back-off delay
    while the budget lasts.  The listener sees status notifications
    only, the last of them 'disconnected'; nothing is transmitted and
    the queue is untouched. *)
Theorem connect_catches_failure
    (userId : option string) (w thrown : Runtime) :
  connect_try (on_this (set_currentUser userId) w) = Thrown thrown ->
  listener_on Disconnected w = Returns ->
  let a := reconnectAttempts (this w) in
  let w' :=
    scheduleReconnect
      (emit (StatusChange Disconnected)
         (emit (ConsoleError "Failed to connect to realtime service:") thrown)) in
  connect userId w = Returned tt w' /\
  notifications w' = notifications w ++ [Connected; Disconnected] /\
  transmitted w' = transmitted w /\
  messageQueue (this w') = messageQueue (this w) /\
  reconnect_delays w' =
    reconnect_delays w ++
    (if a <? maxReconnectAttempts (this w)
     then [backoff_delay 1000 30000 (S a)] else []).
Proof.
  intros Htry Hok. simpl.
  assert (Hko : listener_on Connected w = Throws /\
                thrown = emit (StatusChange Connected)
                           (on_this (set_currentUser userId) w)).
  { unfold connect_try, bind, lift, notifyStatus in Htry.
    unfold listener_on. simpl in Htry.
    destruct (onConnectionStatusChange (this w)) as [handler|];
      [|discriminate].
    destruct (handler Connected); [discriminate|].
    split; [reflexivity | congruence]. }
  destruct Hko as [Hko ->].
  pose proof (connect_fails_effect userId w Hko Hok) as H. simpl in H.
  destruct H as (_ & _ & _ & _ & Hq & Hn & Ht & Hcase).
  assert (Heq : connect userId w =
                Returned tt
                  (scheduleReconnect
                     (emit (StatusChange Disconnected)
                        (emit (ConsoleError "Failed to connect to realtime service:")
                           (emit (StatusChange Connected)
                              (on_this (set_currentUser userId) w)))))).
  { rewrite (connect_fails userId w Hko Hok).
    assert (Hsome : onConnectionStatusChange (this w) <> None).
    { unfold listener_on in Hko.
      destruct (onConnectionStatusChange (this w)); discriminate. }
    rewrite (tell_emit Connected (on_this (set_currentUser userId) w) Hsome).
    now rewrite
      (tell_emit Disconnected
         (emit (ConsoleError "Failed to connect to realtime service:")
            (emit (StatusChange Connected)
               (on_this (set_currentUser userId) w))) Hsome). }
  rewrite Heq in *. simpl in *.
  repeat split; auto.
  destruct (reconnectAttempts (this w) <? maxReconnectAttempts (this w)).
  - tauto.
  - rewrite app_nil_r. tauto.
Qed.

Lemma connect_catches_failure_witness :
  connect_try (on_this (set_currentUser (Some "alice")) failing_service) =
    Thrown (emit (StatusChange Connected)
              (on_this (set_currentUser (Some "alice")) failing_service)) /\
  listener_on Disconnected failing_service = Returns /\
  returned (connect (Some "alice") failing_service) = true /\
  notifications alice_failed_once = [Connected; Disconnected] /\
  reconnect_delays alice_failed_once = [2000%Z].
Proof.
  split; [reflexivity|]. split; [reflexivity|].
  pose proof (connect_catches_failure (Some "alice") failing_service _
                eq_refl eq_refl) as H.
  simpl in H. destruct H as (Hc & Hn & _ & _ & Hd).
  unfold alice_failed_once. rewrite Hc.
  split; [reflexivity|]. split; [exact Hn | exact Hd].
Defined.

(** C3, as the specification words it, fails: after a failed connect,
    a retry that succeeds and a new failed connect, the retry of the new
    failure is not scheduled as attempt 1 (2000 ms) but as attempt 2
    (4000 ms), the counter having kept the failure before the success. *)
Lemma attempts_continue_after_success :
  ~ first_failure_is_attempt_one (Some "alice") alice_failing_again.
Proof.
  intros H. specialize (H (conj eq_refl (conj eq_refl eq_refl))).
  vm_compute in H. discriminate.
Qed.

(** C3, amended.  Every failed connect attempt (the listener taking
    'disconnected') calls [scheduleReconnect], which, while the attempt
    counter is below [maxReconnectAttempts], raises it by one and
    schedules a retry after [min(1000 * 2^attempt, 30000)] ms for the
    new count.  The count is the one the runtime carries: 0 on a fresh
    service, so that its first retry is attempt 1, and otherwise what
    earlier failures left, successes in between or not.  Over [connect]
    and [n] firings of the reconnect timer, all failing, the delays
    scheduled are the back-offs of the attempts that follow the count
    at the start, one for each failure until the budget is used up and
    none after that; they are non-decreasing and at most the cap. *)
Theorem reconnect_backoff
    (h : Host) (userId : string) (n : nat) (w : Runtime) :
  wf_timers w ->
  always_failing w ->
  let a := reconnectAttempts (this w) in
  let budget := maxReconnectAttempts (this w) - a in
  let added :=
    map (backoff_delay 1000 30000) (seq (S a) (Nat.min (S n) budget)) in
  reconnect_delays (connect_and_retry h userId n w) =
    reconnect_delays w ++ added /\
  List.length added <= budget /\
  StronglySorted Z.le added /\
  Forall (fun d => (d <= 30000)%Z) added /\
  reconnectAttempts (this new_RealtimeService) = 0.
Proof.
  intros Hwf Hfail. cbv zeta.
  split; [|split; [|split; [|split]]].
  - unfold connect_and_retry.
    pose proof (connect_one_failure (Some userId) w Hfail) as Hone.
    set (w' := final (connect (Some userId) w)) in *.
    destruct Hone as (Hl & Hm & Hw & Hcase).
    assert (Hfail' : always_failing w')
      by (apply (always_failing_same w); auto).
    destruct (reconnectAttempts (this w) <? maxReconnectAttempts (this w))
      eqn:Hlt.
    + apply Nat.ltb_lt in Hlt. destruct Hcase as (Ha & Hd & Hpend).
      rewrite retries_delays; auto; [|intros Hnil; contradiction].
      rewrite Hd, Hm, Ha, <- app_assoc. f_equal.
      replace (maxReconnectAttempts (this w) - reconnectAttempts (this w))
        with (S (maxReconnectAttempts (this w) - S (reconnectAttempts (this w))))
        by lia.
      reflexivity.
    + apply Nat.ltb_ge in Hlt. destruct Hcase as (Ha & Hd).
      rewrite retries_delays; auto; [|intros _; lia].
      rewrite Hd, Hm, Ha.
      replace (maxReconnectAttempts (this w) - reconnectAttempts (this w))
        with 0 by lia.
      now rewrite !Nat.min_0_r.
  - rewrite length_map, length_seq. apply Nat.le_min_r.
  - apply backoff_run_sorted. lia.
  - apply Forall_forall. intros d Hin.
    apply in_map_iff in Hin. destruct Hin as [k [<- _]].
    apply backoff_delay_bounded.
  - reflexivity.
Qed.

Lemma failing_service_wf : wf_timers failing_service.
Proof.
  split.
  - simpl. repeat constructor; simpl; intuition discriminate.
  - simpl. repeat constructor.
Defined.

Lemma reconnect_backoff_witness :
  wf_timers failing_service /\
  always_failing failing_service /\
  reconnect_delays (connect_and_retry host_a "alice" 7 failing_service) =
    [2000; 4000; 8000; 16000; 30000]%Z.
Proof.
  split; [exact failing_service_wf|].
  split; [repeat split|].
  apply (reconnect_backoff host_a "alice" 7 failing_service
           failing_service_wf (conj eq_refl (conj eq_refl eq_refl))).
Defined.

(* ------------------------------------------------------------------ *)
(** *** The failure scenario with the default parameters *)

Lemma retries_idle h n w : pending_reconnects w = [] -> retries h n w = w.
Proof. intros Hp. destruct n; simpl; [reflexivity | now rewrite Hp]. Qed.

Lemma retries_add h a :
  forall b w, retries h (a + b) w = retries h b (retries h a w).
Proof.
  induction a as [|a IH]; intros b w; simpl; [reflexivity|].
  destruct (pending_reconnects w) as [|t rest] eqn:Hp.
  - now rewrite retries_idle.
  - apply IH.
Qed.

(** C2, as the specification words it, fails: after five failed
    connects in a row the delays scheduled are not 1s, 2s, 4s, 8s,
    16s. *)
Lemma delays_do_not_start_at_one_second :
  reconnect_delays (connect_and_retry host_a "alice" 4 failing_service) <>
  delays_from_one_second.
Proof. vm_compute. discriminate. Qed.

(** C2, amended.  With the parameters of the source (1000 ms doubled per
    attempt, cap 30000 ms, 5 retries), when [connect] fails and each
    retry fails in turn, the retries are scheduled after 2s, 4s, 8s, 16s
    and 30s, the last one capped.  Once the fifth retry has failed too,
    no reconnect timeout is pending, the counter stands at 5, the last
    status the listener was told is 'disconnected', and no further
    firing of a reconnect timer changes anything: there is no sixth
    retry. *)
Theorem default_backoff_schedule (h : Host) (userId : string) (n : nat) :
  let settled := connect_and_retry h userId 5 failing_service in
  reconnect_delays (connect_and_retry h userId 4 failing_service) =
    [2000; 4000; 8000; 16000; 30000]%Z /\
  List.length (pending_reconnects (connect_and_retry h userId 4 failing_service)) = 1 /\
  reconnect_delays settled = [2000; 4000; 8000; 16000; 30000]%Z /\
  pending_reconnects settled = [] /\
  reconnectAttempts (this settled) = 5 /\
  last (notifications settled) Connected = Disconnected /\
  connect_and_retry h userId (5 + n) failing_service = settled.
Proof.
  cbv zeta.
  repeat (split; [reflexivity|]).
  unfold connect_and_retry. rewrite retries_add.
  apply retries_idle. reflexivity.
Qed.

(* ================================================================== *)
(** ** Reachable runtimes are sound *)

Lemma stays_sound_refl w : stays_sound w w.
Proof. intros H. exact H. Qed.

Lemma stays_sound_trans a b c :
  stays_sound a b -> stays_sound b c -> stays_sound a c.
Proof. unfold stays_sound. auto. Qed.

(** Steps that leave the timers and the fields [sound] speaks of alone. *)
Lemma sound_frame w w' :
  socket (this w') = socket (this w) ->
  messageQueue (this w') = messageQueue (this w) ->
  maxReconnectAttempts (this w') = maxReconnectAttempts (this w) ->
  reconnectAttempts (this w') = reconnectAttempts (this w) ->
  heartbeatInterval (this w') = heartbeatInterval (this w) ->
  timers w' = timers w ->
  nextTimer w' = nextTimer w ->
  stays_sound w w'.
Proof.
  intros Hs Hq Hm Ha Hh Ht Hn [S1 S2 S3 S4 S5 S6 S7].
  constructor.
  - now apply (wf_same w).
  - congruence.
  - congruence.
  - congruence.
  - congruence.
  - rewrite Hh, Ht, Hn. exact S6.
  - now rewrite Ht.
Qed.

Lemma sound_emit e w : stays_sound w (emit e w).
Proof. now apply sound_frame. Qed.

Lemma sound_tell st w : stays_sound w (tell st w).
Proof.
  apply sound_frame; rewrite ?tell_this; auto using tell_timers, tell_nextTimer.
Qed.

Lemma sound_drop id w :
  stays_sound w
    (mkRuntime (this w) (drop_timer id (timers w)) (nextTimer w) (trace w)).
Proof.
  intros [S1 S2 S3 S4 S5 S6 S7]. constructor; simpl; auto.
  - now apply wf_drop.
  - intros hb Hhb. destruct (S6 hb Hhb) as [Hlt Hcb]. split; [exact Hlt|].
    intros t Hin. apply filter_In in Hin. apply Hcb. tauto.
  - unfold drop_timer. rewrite Forall_forall in *.
    intros t Hin. apply filter_In in Hin. apply S7. tauto.
Qed.

Lemma sound_startHeartbeat w : stays_sound w (startHeartbeat w).
Proof.
  intros [S1 S2 S3 S4 S5 S6 S7]. constructor; simpl; auto.
  - apply (wf_register true 30000 Heartbeat w S1).
  - intros id Hid. injection Hid as <-. split; [lia|].
    intros t Hin Heq. apply in_app_or in Hin. destruct Hin as [Hin|[<-|[]]].
    + destruct S1 as [_ Hlt]. rewrite Forall_forall in Hlt.
      specialize (Hlt t Hin). lia.
    + reflexivity.
  - apply Forall_app. split; [exact S7|]. repeat constructor.
Qed.

Lemma sound_scheduleReconnect w : stays_sound w (scheduleReconnect w).
Proof.
  unfold scheduleReconnect.
  destruct (reconnectAttempts (this w) <? maxReconnectAttempts (this w)) eqn:Hlt;
    [|apply stays_sound_refl].
  apply Nat.ltb_lt in Hlt.
  intros [S1 S2 S3 S4 S5 S6 S7].
  constructor; cbn -[Z.min Z.mul Z.pow Z.of_nat]; auto.
  - apply (wf_register false _ Reconnect
             (on_this (fun o => set_reconnectAttempts (S (reconnectAttempts o)) o) w)).
    exact S1.
  - lia.
  - intros id Hid. destruct (S6 id Hid) as [Hn Hcb]. split; [lia|].
    intros t Hin Heq. apply in_app_or in Hin. destruct Hin as [Hin|[<-|[]]].
    + now apply Hcb.
    + cbn in Heq. lia.
  - apply Forall_app. split; [exact S7|].
    constructor; [|constructor].
    unfold timer_shape; cbn -[Z.min Z.mul Z.pow Z.of_nat].
    split; [reflexivity|].
    assert (2 <= 2 ^ Z.of_nat (S (reconnectAttempts (this w))))%Z.
    { change 2%Z with (2 ^ 1)%Z at 1. apply Z.pow_le_mono_r; lia. }
    lia.
Qed.

Lemma sound_drained w : stays_sound w (drained w).
Proof.
  intros [S1 S2 S3 S4 S5 S6 S7]. constructor; simpl; auto.
Qed.

Ltac keep_sound :=
  repeat match goal with
         | |- respects _ (bind _ _) =>
             apply (respects_bind stays_sound stays_sound_trans); [|intros ?]
         | |- respects _ (try_catch _ _) =>
             apply (respects_try_catch stays_sound stays_sound_trans)
         | |- respects _ (lift _) =>
             apply (respects_lift stays_sound); intros ?
         end.

Lemma sound_notifyStatus st : respects stays_sound (notifyStatus st).
Proof.
  intros w. rewrite notifyStatus_eq.
  destruct (listener_on st w); apply sound_tell.
Qed.

Lemma sound_connect userId : respects stays_sound (connect userId).
Proof.
  unfold connect, connect_try, connect_catch. keep_sound.
  - now apply sound_frame.
  - apply sound_notifyStatus.
  - apply sound_startHeartbeat.
  - rewrite processMessageQueue_eq. apply sound_drained.
  - apply sound_emit.
  - apply sound_notifyStatus.
  - apply sound_scheduleReconnect.
Qed.

Lemma sound_disconnect : respects stays_sound disconnect.
Proof.
  unfold disconnect. keep_sound.
  - intros [S1 S2 S3 S4 S5 S6 S7]. rewrite S2. now constructor.
  - destruct (heartbeatInterval (this w)) as [id|] eqn:Hhb;
      [|apply stays_sound_refl].
    intros Hs. pose proof (sound_drop id w Hs) as [S1 S2 S3 S4 S5 S6 S7].
    constructor; simpl in *; auto. discriminate.
  - apply sound_notifyStatus.
Qed.

Lemma sound_sendRealtimeMessage m w : stays_sound w (sendRealtimeMessage m w).
Proof. apply sound_emit. Qed.

Lemma sound_run_callback h cb : respects stays_sound (run_callback h cb).
Proof.
  destruct cb; simpl.
  - keep_sound; [apply sound_notifyStatus | apply sound_startHeartbeat].
  - intros w.
    destruct (random_gt_095 h && truthy (currentUser (this w)));
      [|apply stays_sound_refl].
    unfold notifyMessage.
    destruct (onMessageReceived (this w)) as [handler|];
      [|apply stays_sound_refl].
    destruct (handler _); simpl; apply sound_emit.
  - intros w. rewrite isConnected_true, updatePresence_eq. simpl.
    apply sound_sendRealtimeMessage.
  - keep_sound; [apply sound_notifyStatus|].
    intros w. simpl. apply sound_connect.
Qed.

Lemma sound_step c w : stays_sound w (step c w).
Proof.
  destruct c; simpl.
  - apply sound_connect.
  - apply sound_disconnect.
  - rewrite send_eq. destruct (envelope _ _); apply sound_emit.
  - rewrite sendTypingIndicator_eq. apply sound_sendRealtimeMessage.
  - rewrite updatePresence_eq. apply sound_sendRealtimeMessage.
  - rewrite sendDeliveryReceipt_eq. apply sound_sendRealtimeMessage.
  - rewrite sendReadReceipt_eq. apply sound_sendRealtimeMessage.
  - now apply sound_frame.
  - now apply sound_frame.
  - unfold fire.
    destruct (find (fun t => Nat.eqb (timer_id t) id) (timers w)) as [t|];
      [|apply stays_sound_refl].
    destruct (repeats t).
    + apply sound_run_callback.
    + eapply stays_sound_trans; [apply sound_drop | apply sound_run_callback].
Qed.

Lemma sound_new : sound new_RealtimeService.
Proof.
  constructor; simpl; auto.
  - split; simpl.
    + repeat constructor; simpl; intuition discriminate.
    + repeat constructor.
  - lia.
  - discriminate.
  - repeat constructor.
Qed.

Lemma sound_run cs : forall w, sound w -> sound (run cs w).
Proof.
  induction cs as [|c cs IH]; intros w Hs; simpl; [exact Hs|].
  apply IH. now apply sound_step.
Qed.

(* ================================================================== *)
(** ** The schedule of retries over the life of a service *)

Lemma paced_refl w : paced w w.
Proof.
  unfold paced. rewrite Nat.sub_diag. simpl. rewrite app_nil_r. auto.
Qed.

Lemma paced_trans a b c : paced a b -> paced b c -> paced a c.
Proof.
  intros (Hm1 & Hle1 & Hd1) (Hm2 & Hle2 & Hd2).
  split; [congruence|]. split; [lia|].
  rewrite Hd2, Hd1, <- app_assoc, <- map_app. do 2 f_equal.
  replace (reconnectAttempts (this c) - reconnectAttempts (this a))
    with ((reconnectAttempts (this b) - reconnectAttempts (this a)) +
          (reconnectAttempts (this c) - reconnectAttempts (this b))) by lia.
  rewrite seq_app. do 2 f_equal. lia.
Qed.

(** A step that leaves the counter alone schedules no retry. *)
Lemma paced_quiet w w' :
  evolves w w' ->
  reconnectAttempts (this w') = reconnectAttempts (this w) ->
  paced w w'.
Proof.
  intros [Hm _ _ Hcount _ [es Hes] _] Ha.
  split; [exact Hm|]. split; [lia|].
  rewrite Ha, Nat.sub_diag. simpl. rewrite app_nil_r.
  unfold reconnect_delays in *. rewrite Hes, flat_map_app in *.
  rewrite length_app in Hcount.
  destruct (flat_map _ es); [now rewrite app_nil_r | simpl in Hcount; lia].
Qed.

Lemma paced_scheduleReconnect w : paced w (scheduleReconnect w).
Proof.
  pose proof (scheduleReconnect_spec w) as H. cbv zeta in H.
  destruct H as (_ & Hm & _ & _ & Hcase).
  destruct (reconnectAttempts (this w) <? maxReconnectAttempts (this w)).
  - destruct Hcase as (Ha & Hd & _).
    split; [exact Hm|]. split; [lia|]. rewrite Hd, Ha.
    replace (S (reconnectAttempts (this w)) - reconnectAttempts (this w))
      with 1 by lia.
    reflexivity.
  - rewrite Hcase. apply paced_refl.
Qed.

Ltac keep_pace :=
  repeat match goal with
         | |- respects _ (bind _ _) =>
             apply (respects_bind paced paced_trans); [|intros ?]
         | |- respects _ (try_catch _ _) =>
             apply (respects_try_catch paced paced_trans)
         | |- respects _ (lift _) =>
             apply (respects_lift paced); intros ?
         end.

Lemma paced_notifyStatus st : respects paced (notifyStatus st).
Proof.
  intros w. apply paced_quiet; [apply evolves_notifyStatus|].
  rewrite notifyStatus_eq. destruct (listener_on st w); simpl;
    now rewrite tell_this.
Qed.

Lemma paced_connect userId : respects paced (connect userId).
Proof.
  unfold connect, connect_try, connect_catch. keep_pace.
  - apply paced_quiet; [now apply evolves_on_this | reflexivity].
  - apply paced_notifyStatus.
  - apply paced_quiet; [apply evolves_startHeartbeat | reflexivity].
  - apply paced_quiet; [apply evolves_processMessageQueue|].
    now rewrite processMessageQueue_eq.
  - apply paced_quiet; [now apply evolves_emit | reflexivity].
  - apply paced_notifyStatus.
  - apply paced_scheduleReconnect.
Qed.

Lemma paced_fire h id : respects paced (fire h id).
Proof.
  intros w. unfold fire.
  destruct (find (fun t => Nat.eqb (timer_id t) id) (timers w)) as [t|];
    [|apply paced_refl].
  eapply paced_trans with
    (b := if repeats t then w
          else mkRuntime (this w) (drop_timer id (timers w)) (nextTimer w) (trace w)).
  { destruct (repeats t); [apply paced_refl|].
    apply paced_quiet; [apply evolves_drop | reflexivity]. }
  generalize (if repeats t then w
              else mkRuntime (this w) (drop_timer id (timers w))
                     (nextTimer w) (trace w)).
  clear w. intros w. destruct (callback t); simpl.
  - revert w. change (respects paced (notifyStatus Connected ;; lift startHeartbeat)).
    keep_pace; [apply paced_notifyStatus|].
    apply paced_quiet; [apply evolves_startHeartbeat | reflexivity].
  - apply paced_quiet; [apply (evolves_run_callback h SimulateIncoming)|].
    simpl. destruct (random_gt_095 h && truthy (currentUser (this w)));
      [|reflexivity].
    unfold notifyMessage. destruct (onMessageReceived (this w)) as [handler|];
      [|reflexivity].
    now destruct (handler _).
  - apply paced_quiet; [apply (evolves_run_callback h Heartbeat)|].
    simpl. now rewrite isConnected_true, updatePresence_eq.
  - revert w.
    change (respects paced
              (notifyStatus Reconnecting ;;
               (fun w => Returned tt (final (connect (currentUser (this w)) w))))).
    keep_pace; [apply paced_notifyStatus|].
    intros w. simpl. apply paced_connect.
Qed.

Lemma paced_step c w : paced w (step c w).
Proof.
  destruct c; simpl.
  - apply paced_connect.
  - apply paced_quiet; [apply evolves_disconnect|].
    pose proof (disconnect_frame w) as H. simpl in H. tauto.
  - apply paced_quiet; [apply evolves_send|].
    rewrite send_eq. now destruct (envelope _ _).
  - apply paced_quiet; [apply (evolves_step (CallSendTypingIndicator h recipientPublicKey isTyping))|].
    now rewrite sendTypingIndicator_eq.
  - apply paced_quiet; [apply (evolves_step (CallUpdatePresence h status))|].
    now rewrite updatePresence_eq.
  - apply paced_quiet; [apply (evolves_step (CallSendDeliveryReceipt h messageId senderPublicKey))|].
    now rewrite sendDeliveryReceipt_eq.
  - apply paced_quiet; [apply (evolves_step (CallSendReadReceipt h messageId senderPublicKey))|].
    now rewrite sendReadReceipt_eq.
  - apply paced_quiet; [now apply evolves_on_this | reflexivity].
  - apply paced_quiet; [now apply evolves_on_this | reflexivity].
  - apply paced_fire.
Qed.

Lemma paced_run cs : forall w, paced w (run cs w).
Proof.
  induction cs as [|c cs IH]; intros w; simpl; [apply paced_refl|].
  eapply paced_trans; [apply paced_step | apply IH].
Qed.

(* ================================================================== *)
(** ** Further properties of the service *)

Lemma drop_timer_spares (P : Timer -> bool) id (ts : list Timer) :
  (forall t, In t ts -> timer_id t = id -> P t = false) ->
  filter P (drop_timer id ts) = filter P ts.
Proof.
  unfold drop_timer. induction ts as [|t ts IH]; intros Hid; simpl; [reflexivity|].
  assert (IH' : filter P (filter (fun t0 => negb (Nat.eqb (timer_id t0) id)) ts) =
                filter P ts).
  { apply IH. intros t' Hin. apply Hid. now right. }
  destruct (Nat.eqb (timer_id t) id) eqn:E; simpl.
  - apply Nat.eqb_eq in E. rewrite (Hid t (or_introl eq_refl) E). exact IH'.
  - now rewrite IH'.
Qed.

Lemma drop_timer_absent id (ts : list Timer) :
  Forall (fun t => timer_id t <> id) ts -> drop_timer id ts = ts.
Proof.
  unfold drop_timer. induction 1 as [|t ts Ht _ IH]; simpl; [reflexivity|].
  apply Nat.eqb_neq in Ht. rewrite Ht. simpl. now rewrite IH.
Qed.

Lemma find_absent id (ts : list Timer) :
  Forall (fun t => timer_id t <> id) ts ->
  find (fun t => Nat.eqb (timer_id t) id) ts = None.
Proof.
  induction 1 as [|t ts Ht _ IH]; simpl; [reflexivity|].
  apply Nat.eqb_neq in Ht. now rewrite Ht.
Qed.

Lemma wf_timers_below w :
  wf_timers w -> forall n, nextTimer w <= n ->
  Forall (fun t => timer_id t <> n) (timers w).
Proof.
  intros [_ Hlt] n Hn. eapply Forall_impl; [|exact Hlt]. simpl. intros; lia.
Qed.

(** The timers of a connect whose listener takes 'connected'. *)
Lemma connect_success_timers userId w :
  listener_on Connected w = Returns ->
  let w' := final (connect userId w) in
  timers w' = timers w ++ [heartbeat_timer (nextTimer w)] /\
  nextTimer w' = S (nextTimer w) /\
  heartbeatInterval (this w') = Some (nextTimer w) /\
  onConnectionStatusChange (this w') = onConnectionStatusChange (this w) /\
  notifications w' = notifications w ++ notifications_of (heard Connected w).
Proof.
  intros Hok. simpl. rewrite (connect_succeeds userId w Hok). simpl.
  rewrite processMessageQueue_eq. simpl.
  rewrite tell_timers, tell_nextTimer, tell_this. simpl.
  repeat split.
  unfold notifications, notifications_of. simpl.
  rewrite !flat_map_app, tell_trace, flat_map_app. simpl.
  assert (Hnil : forall q,
             flat_map (fun e => match e with StatusChange st => [st] | _ => [] end)
               (map Sent q) = []).
  { induction q; simpl; auto. }
  rewrite Hnil, !app_nil_r.
  unfold heard. simpl. reflexivity.
Qed.

(** What firing a pending heartbeat interval does. *)
Lemma fire_heartbeat h id t w :
  find (fun t' => Nat.eqb (timer_id t') id) (timers w) = Some t ->
  callback t = Heartbeat -> repeats t = true ->
  fire h id w = Returned tt (sendRealtimeMessage (presence_online h w) w).
Proof.
  intros Hfind Hcb Hrep. unfold fire. rewrite Hfind, Hcb, Hrep. simpl.
  now rewrite isConnected_true, updatePresence_eq.
Qed.

Lemma same_user_refl w : same_user w w.
Proof. reflexivity. Qed.

Lemma same_user_trans a b c : same_user a b -> same_user b c -> same_user a c.
Proof. unfold same_user. congruence. Qed.

Lemma same_user_notifyStatus st : respects same_user (notifyStatus st).
Proof.
  intros w. unfold same_user. rewrite notifyStatus_eq.
  destruct (listener_on st w); simpl; now rewrite tell_this.
Qed.

Lemma same_user_scheduleReconnect w : same_user w (scheduleReconnect w).
Proof.
  pose proof (scheduleReconnect_spec w) as H. cbv zeta in H.
  unfold same_user. tauto.
Qed.

Lemma connect_sets_user userId w :
  currentUser (this (final (connect userId w))) = userId.
Proof.
  assert (H : respects same_user (try_catch connect_try connect_catch)).
  { unfold connect_try, connect_catch.
    repeat match goal with
           | |- respects _ (bind _ _) =>
               apply (respects_bind same_user same_user_trans); [|intros ?]
           | |- respects _ (try_catch _ _) =>
               apply (respects_try_catch same_user same_user_trans)
           | |- respects _ (lift _) =>
               apply (respects_lift same_user); intros ?
           end;
      try apply same_user_notifyStatus;
      try apply same_user_scheduleReconnect;
      try reflexivity.
    unfold same_user. now rewrite processMessageQueue_eq. }
  specialize (H (on_this (set_currentUser userId) w)).
  exact H.
Qed.

(** X1.  However a service is used, it never holds a socket and its
    queue stays empty: in every runtime reached from
    [new RealtimeService()] by calls of the public methods and timer
    firings, [socket] is [null] and [messageQueue] is empty, while
    [isConnected] answers [true]. *)
Theorem service_never_connects_nor_queues (calls : list Call) :
  socket (this (run calls new_RealtimeService)) = None /\
  socket_connected (this (run calls new_RealtimeService)) = false /\
  messageQueue (this (run calls new_RealtimeService)) = [] /\
  isConnected (run calls new_RealtimeService) = true.
Proof.
  destruct (sound_run calls _ sound_new) as [_ Hs Hq _ _ _ _].
  split; [exact Hs|].
  split; [unfold socket_connected; now rewrite Hs|].
  split; [exact Hq | apply isConnected_true].
Qed.

(** X2.  Over the whole life of a service, whatever the calls and timer
    firings and in whatever order, at most five reconnect timeouts are
    ever scheduled; their number is the attempt counter, and the k-th
    one is scheduled after [min(1000 * 2^k, 30000)] ms: the delays are
    always a prefix of 2s, 4s, 8s, 16s, 30s. *)
Theorem lifetime_retry_schedule (calls : list Call) :
  reconnectAttempts (this (run calls new_RealtimeService)) <= 5 /\
  reconnect_delays (run calls new_RealtimeService) =
    map (backoff_delay 1000 30000)
      (seq 1 (reconnectAttempts (this (run calls new_RealtimeService)))) /\
  reconnect_delays (run calls new_RealtimeService) =
    firstn (reconnectAttempts (this (run calls new_RealtimeService)))
      [2000; 4000; 8000; 16000; 30000]%Z.
Proof.
  destruct (sound_run calls _ sound_new) as [_ _ _ _ Hle _ _].
  destruct (paced_run calls new_RealtimeService) as (_ & _ & Hd).
  change (reconnect_delays new_RealtimeService) with (@nil Z) in Hd.
  change (reconnectAttempts (this new_RealtimeService)) with 0 in Hd.
  rewrite Nat.sub_0_r in Hd. simpl app in Hd.
  split; [exact Hle|]. split; [exact Hd|].
  rewrite Hd.
  destruct (reconnectAttempts (this (run calls new_RealtimeService)))
    as [|[|[|[|[|[|k]]]]]]; try reflexivity; lia.
Qed.

(** X3.  In every runtime reached from [new RealtimeService()], timer
    handles are unique and the handle kept in [heartbeatInterval] is
    that of a heartbeat interval; so [disconnect] removes no timer but
    heartbeats: the pending reconnect timeouts, the simulator and the
    constructor's timeout are pending after it as before. *)
Theorem disconnect_spares_other_timers (calls : list Call) :
  NoDup (map timer_id (timers (run calls new_RealtimeService))) /\
  filter (fun t => negb (is_heartbeat t))
    (timers (final (disconnect (run calls new_RealtimeService)))) =
  filter (fun t => negb (is_heartbeat t))
    (timers (run calls new_RealtimeService)) /\
  pending_reconnects (final (disconnect (run calls new_RealtimeService))) =
  pending_reconnects (run calls new_RealtimeService).
Proof.
  destruct (sound_run calls _ sound_new) as [[Hnd _] _ _ _ _ Hhb _].
  set (w := run calls new_RealtimeService) in *.
  pose proof (disconnect_frame w) as Hd. simpl in Hd.
  destruct Hd as (_ & _ & _ & _ & _ & _ & _ & Ht).
  split; [exact Hnd|].
  unfold pending_reconnects. rewrite Ht.
  destruct (heartbeatInterval (this w)) as [id|]; [|split; reflexivity].
  destruct (Hhb id eq_refl) as [_ Hcb].
  split; apply drop_timer_spares; intros t Hin Hid;
    specialize (Hcb t Hin Hid).
  - unfold is_heartbeat. now rewrite Hcb.
  - unfold is_reconnect. now rewrite Hcb.
Qed.

Lemma find_after_absent id (ts ts' : list Timer) :
  Forall (fun t => timer_id t <> id) ts ->
  find (fun t => Nat.eqb (timer_id t) id) (ts ++ ts') =
  find (fun t => Nat.eqb (timer_id t) id) ts'.
Proof.
  induction 1 as [|t ts Ht _ IH]; simpl; [reflexivity|].
  apply Nat.eqb_neq in Ht. now rewrite Ht.
Qed.

(** X4.  A heartbeat started by one connect is never cancelled by the
    next: [startHeartbeat] overwrites the stored handle.  After two
    successful connects and a disconnect on any reachable runtime, the
    heartbeat interval of the first connect is still pending, although
    [heartbeatInterval] is [null]; when it fires, a presence envelope
    goes to the transport. *)
Theorem heartbeat_outlives_disconnect
    (calls : list Call) (u1 u2 : option string) (h : Host) :
  listener_on Connected (run calls new_RealtimeService) = Returns ->
  let w := run calls new_RealtimeService in
  let w' := final (disconnect (final (connect u2 (final (connect u1 w))))) in
  timers w' = timers w ++ [heartbeat_timer (nextTimer w)] /\
  heartbeatInterval (this w') = None /\
  fire h (nextTimer w) w' =
    Returned tt (sendRealtimeMessage (presence_online h w') w').
Proof.
  intros Hok. cbv zeta.
  pose proof (sound_timers _ (sound_run calls _ sound_new)) as Hwf.
  set (w := run calls new_RealtimeService) in *.
  pose proof (connect_success_timers u1 w Hok) as H1. cbv zeta in H1.
  set (w1 := final (connect u1 w)) in *.
  destruct H1 as (Ht1 & Hn1 & _ & Hl1 & _).
  assert (Hok1 : listener_on Connected w1 = Returns)
    by now rewrite (listener_on_same Connected w).
  pose proof (connect_success_timers u2 w1 Hok1) as H2. cbv zeta in H2.
  set (w2 := final (connect u2 w1)) in *.
  destruct H2 as (Ht2 & _ & Hh2 & _ & _).
  pose proof (disconnect_frame w2) as Hd. cbv zeta in Hd.
  destruct Hd as (_ & _ & _ & _ & _ & _ & Hnone & Ht).
  rewrite Hh2, Ht2, Ht1, Hn1 in Ht.
  assert (Htimers : timers (final (disconnect w2)) =
                    timers w ++ [heartbeat_timer (nextTimer w)]).
  { rewrite Ht, <- app_assoc. unfold drop_timer. rewrite filter_app.
    fold (drop_timer (S (nextTimer w)) (timers w)).
    rewrite (drop_timer_absent _ _ (wf_timers_below w Hwf _ (Nat.le_succ_diag_r _))).
    f_equal. simpl.
    rewrite Nat.eqb_refl.
    replace (Nat.eqb (nextTimer w) (S (nextTimer w))) with false
      by (symmetry; apply Nat.eqb_neq; lia).
    reflexivity. }
  split; [exact Htimers|]. split; [exact Hnone|].
  apply (fire_heartbeat h _ (heartbeat_timer (nextTimer w))); try reflexivity.
  rewrite Htimers.
  rewrite (find_after_absent _ _ _ (wf_timers_below w Hwf _ (Nat.le_refl _))).
  simpl. now rewrite Nat.eqb_refl.
Qed.

Lemma heartbeat_outlives_disconnect_witness :
  listener_on Connected (run [CallOnConnectionStatus accepts_all] new_RealtimeService) =
    Returns /\
  timers
    (final (disconnect
       (final (connect (Some "alice")
          (final (connect (Some "alice")
             (run [CallOnConnectionStatus accepts_all] new_RealtimeService))))))) =
  timers (run [CallOnConnectionStatus accepts_all] new_RealtimeService) ++
  [heartbeat_timer 3].
Proof.
  split; [reflexivity|].
  apply (heartbeat_outlives_disconnect [CallOnConnectionStatus accepts_all]
           (Some "alice") (Some "alice") host_a eq_refl).
Defined.

(** X5.  The demo simulator hands a message to the message listener only
    when the draw exceeds 0.95, a non-empty user is set and a listener is
    registered; the message is addressed to the current user.  Firing
    the simulator never transmits anything and leaves the object and the
    timers as they were (the interval stays pending). *)
Theorem simulator_needs_a_user (h : Host) (id : nat) (t : Timer) (w : Runtime) :
  find (fun t' => Nat.eqb (timer_id t') id) (timers w) = Some t ->
  callback t = SimulateIncoming ->
  repeats t = true ->
  this (final (fire h id w)) = this w /\
  timers (final (fire h id w)) = timers w /\
  transmitted (final (fire h id w)) = transmitted w /\
  delivered (final (fire h id w)) =
    delivered w ++
    (if random_gt_095 h && truthy (currentUser (this w)) then
       match onMessageReceived (this w) with
       | Some _ => [mockMessage h (currentUser (this w))]
       | None => []
       end
     else []) /\
  Some (m_recipient (mockMessage h (currentUser (this w)))) =
    (if truthy (currentUser (this w)) then currentUser (this w) else Some "").
Proof.
  intros Hfind Hcb Hrep. unfold fire. rewrite Hfind, Hcb, Hrep. simpl.
  assert (Hrec : Some (match currentUser (this w) with Some u => u | None => "" end) =
                 (if truthy (currentUser (this w)) then currentUser (this w)
                  else Some "")).
  { destruct (currentUser (this w)) as [[|c u]|]; reflexivity. }
  destruct (random_gt_095 h && truthy (currentUser (this w))).
  - unfold notifyMessage, delivered, transmitted.
    destruct (onMessageReceived (this w)) as [handler|]; simpl.
    + destruct (handler _); simpl; rewrite !flat_map_snoc; simpl;
        rewrite ?app_nil_r; repeat split; exact Hrec.
    + rewrite app_nil_r. repeat split; exact Hrec.
  - simpl. unfold delivered. rewrite app_nil_r. repeat split; exact Hrec.
Qed.

Lemma simulator_needs_a_user_witness :
  find (fun t' => Nat.eqb (timer_id t') 2) (timers alice_listening) =
    Some (mkTimer 2 true 10000 SimulateIncoming) /\
  delivered (final (fire lucky_host 2 alice_listening)) =
    [mockMessage lucky_host (Some "alice")] /\
  delivered (final (fire lucky_host 2 (onMessage (fun _ => Returns) new_RealtimeService))) =
    [].
Proof.
  split; [reflexivity|]. split.
  - apply (simulator_needs_a_user lucky_host 2 _ alice_listening
             eq_refl eq_refl eq_refl).
  - reflexivity.
Defined.

(** X6.  [connect] records its user whether it succeeds or fails, and
    [disconnect] does not clear it: after a connect and a disconnect the
    object still holds the user of the connect, and a signal sent then
    still carries that user as its sender. *)
Theorem identity_survives_disconnect
    (userId : option string) (h : Host) (recipientPublicKey : string)
    (isTyping : bool) (w : Runtime) :
  currentUser (this (final (connect userId w))) = userId /\
  currentUser (this (final (disconnect (final (connect userId w))))) = userId /\
  transmitted
    (sendTypingIndicator h recipientPublicKey isTyping
       (final (disconnect (final (connect userId w))))) =
  transmitted (final (disconnect (final (connect userId w)))) ++
  [mkRealtimeMessage (nanoid h) typing userId recipientPublicKey
     (TypingData isTyping) (now h) None].
Proof.
  pose proof (connect_sets_user userId w) as Hu.
  pose proof (disconnect_frame (final (connect userId w))) as Hd.
  cbv zeta in Hd. destruct Hd as (_ & Hu' & _).
  rewrite Hu in Hu'.
  split; [exact Hu|]. split; [exact Hu'|].
  rewrite sendTypingIndicator_eq. unfold sendRealtimeMessage.
  now rewrite transmitted_emit, Hu'.
Qed.

(** X7.  A retry that succeeds recovers the session: when a pending
    reconnect timeout fires and the listener takes 'reconnecting' and
    'connected', the listener is told these two in this order, the queue
    is handed to the transport and emptied, the user stays the one of
    the failed connect, and the attempt counter stays where the failures
    left it. *)
Theorem retry_that_succeeds_recovers
    (h : Host) (t : Timer) (rest : list Timer) (w : Runtime) :
  wf_timers w ->
  pending_reconnects w = t :: rest ->
  listener_on Reconnecting w = Returns ->
  listener_on Connected w = Returns ->
  notifications (final (fire h (timer_id t) w)) =
    notifications w ++
    notifications_of (heard Reconnecting w ++ heard Connected w) /\
  messageQueue (this (final (fire h (timer_id t) w))) = [] /\
  transmitted (final (fire h (timer_id t) w)) =
    transmitted w ++ messageQueue (this w) /\
  currentUser (this (final (fire h (timer_id t) w))) = currentUser (this w) /\
  reconnectAttempts (this (final (fire h (timer_id t) w))) =
    reconnectAttempts (this w).
Proof.
  intros Hwf Hp Hre Hok.
  destruct (fire_reconnect h w t rest Hwf Hp Hre)
    as (w0 & Hthis & Htrace & _ & ->).
  set (w1 := tell Reconnecting w0).
  assert (Hthis1 : this w1 = this w) by (subst w1; now rewrite tell_this).
  assert (Hok1 : listener_on Connected w1 = Returns).
  { rewrite (listener_on_same Connected w); [exact Hok | now rewrite Hthis1]. }
  destruct (connect_drains (currentUser (this w)) w1 Hok1) as (Hq & Ht & Hu & Ha).
  pose proof (connect_success_timers (currentUser (this w)) w1 Hok1) as Hc.
  cbv zeta in Hc. destruct Hc as (_ & _ & _ & _ & Hn).
  assert (Hheard : forall st, heard st w1 = heard st w /\ heard st w0 = heard st w).
  { intros st. unfold heard. now rewrite Hthis1, Hthis. }
  split; [|split; [exact Hq|split; [|split]]].
  - rewrite Hn. destruct (Hheard Connected) as [-> _].
    unfold notifications, w1. rewrite tell_trace, Htrace.
    destruct (Hheard Reconnecting) as [_ ->].
    unfold notifications_of. now rewrite !flat_map_app, <- app_assoc.
  - rewrite Ht, Hthis1. unfold w1. rewrite tell_transmitted.
    unfold transmitted. now rewrite Htrace.
  - exact Hu.
  - now rewrite Ha, Hthis1.
Qed.

Lemma alice_recovering_wf : wf_timers alice_recovering.
Proof.
  split; simpl.
  - repeat constructor; simpl; intuition discriminate.
  - repeat constructor.
Defined.

Lemma retry_that_succeeds_recovers_witness :
  wf_timers alice_recovering /\
  pending_reconnects alice_recovering = [mkTimer 3 false 2000 Reconnect] /\
  listener_on Reconnecting alice_recovering = Returns /\
  listener_on Connected alice_recovering = Returns /\
  notifications (final (fire host_a 3 alice_recovering)) =
    [Connected; Disconnected; Reconnecting; Connected] /\
  reconnectAttempts (this (final (fire host_a 3 alice_recovering))) = 1.
Proof.
  split; [exact alice_recovering_wf|].
  split; [reflexivity|]. split; [reflexivity|]. split; [reflexivity|].
  pose proof (retry_that_succeeds_recovers host_a (mkTimer 3 false 2000 Reconnect)
                [] alice_recovering alice_recovering_wf eq_refl eq_refl eq_refl)
    as H.
  split; [exact (proj1 H) | exact (proj2 (proj2 (proj2 (proj2 H))))].
Defined.

(** X8.  The timeout set by the constructor announces 'connected' and
    starts a heartbeat without any connect: when it fires, the listener
    (if one is registered by then) is told 'connected', a heartbeat
    interval is registered and its handle stored; but, unlike [connect],
    it sets no user, and the queue is neither transmitted nor emptied. *)
Theorem mock_connection_is_not_a_connect
    (h : Host) (id : nat) (t : Timer) (w : Runtime) :
  find (fun t' => Nat.eqb (timer_id t') id) (timers w) = Some t ->
  callback t = MockConnected ->
  repeats t = false ->
  listener_on Connected w = Returns ->
  notifications (final (fire h id w)) =
    notifications w ++ notifications_of (heard Connected w) /\
  currentUser (this (final (fire h id w))) = currentUser (this w) /\
  messageQueue (this (final (fire h id w))) = messageQueue (this w) /\
  transmitted (final (fire h id w)) = transmitted w /\
  heartbeatInterval (this (final (fire h id w))) = Some (nextTimer w) /\
  timers (final (fire h id w)) =
    drop_timer id (timers w) ++ [heartbeat_timer (nextTimer w)].
Proof.
  intros Hfind Hcb Hrep Hok. unfold fire. rewrite Hfind, Hcb, Hrep. simpl.
  unfold bind, lift. rewrite notifyStatus_eq.
  rewrite (listener_on_same Connected w) by reflexivity.
  rewrite Hok. simpl.
  rewrite tell_this, tell_timers, tell_nextTimer. simpl.
  split; [|repeat split].
  - unfold notifications, notifications_of. simpl.
    rewrite flat_map_snoc, tell_trace, flat_map_app. simpl.
    now rewrite app_nil_r.
  - unfold transmitted. simpl.
    rewrite flat_map_snoc, tell_trace, flat_map_app. simpl.
    rewrite app_nil_r. unfold heard. simpl.
    destruct (onConnectionStatusChange (this w)); simpl; now rewrite app_nil_r.
Qed.

Lemma mock_connection_is_not_a_connect_witness :
  find (fun t' => Nat.eqb (timer_id t') 1) (timers backlog_service) =
    Some (mkTimer 1 false 1000 MockConnected) /\
  listener_on Connected backlog_service = Returns /\
  notifications (final (fire host_a 1 backlog_service)) = [Connected] /\
  currentUser (this (final (fire host_a 1 backlog_service))) = None /\
  messageQueue (this (final (fire host_a 1 backlog_service))) =
    [queued_message "q1"; queued_message "q2"].
Proof.
  split; [reflexivity|]. split; [reflexivity|].
  pose proof (mock_connection_is_not_a_connect host_a 1 _ backlog_service
                eq_refl eq_refl eq_refl eq_refl) as H.
  split; [exact (proj1 H)|].
  split; [exact (proj1 (proj2 H)) | exact (proj1 (proj2 (proj2 H)))].
Defined.

(* ================================================================== *)
(** ** Properties of the recipient field *)

Module RecipientInputFacts.
Import RecipientInput.

(** A validation writes neither the ref nor the timeouts. *)
Lemma validate_frame k value u :
  pending (snd (validateAndSelectAddress k value u)) = pending u /\
  nextHandle (snd (validateAndSelectAddress k value u)) = nextHandle u /\
  validationTimeoutRef (fields (snd (validateAndSelectAddress k value u))) =
    validationTimeoutRef (fields u) /\
  input (fields (snd (validateAndSelectAddress k value u))) = input (fields u).
Proof.
  destruct k as [[[[] v]|] [[[|c s]|]|] [[]|] [[[|c' s']|]|] [[[[|c'' s'']|]|]|]];
    repeat split.
Qed.

Lemma debounced_frame u u' :
  pending u' = pending u -> nextHandle u' = nextHandle u ->
  validationTimeoutRef (fields u') = validationTimeoutRef (fields u) ->
  debounced u -> debounced u'.
Proof. unfold debounced. now intros -> -> ->. Qed.

(** Clearing the timeout the ref points to leaves nothing pending. *)
Lemma debounced_cleared u :
  debounced u ->
  pending (match validationTimeoutRef (fields u) with
           | Some h => clearTimeout h u
           | None => u
           end) = [].
Proof.
  intros (_ & _ & Href).
  destruct (validationTimeoutRef (fields u)) as [h|]; simpl.
  - induction Href as [|e es He _ IH]; simpl; [reflexivity|].
    injection He as ->. now rewrite Nat.eqb_refl.
  - destruct Href as [|e es He _]; [reflexivity | discriminate].
Qed.

Lemma debounced_at_most_one u : debounced u -> List.length (pending u) <= 1.
Proof.
  intros (Hnd & _ & Href).
  destruct (pending u) as [|[h1 v1] [|[h2 v2] rest]]; simpl; try lia.
  exfalso. inversion Href as [|? ? H1 Hrest]; subst.
  inversion Hrest as [|? ? H2 _]; subst. simpl in *.
  assert (h1 = h2) by congruence. subst.
  inversion Hnd as [|? ? Hnotin _]; subst. apply Hnotin. now left.
Qed.

Lemma debounced_handleInputChange value u :
  debounced u ->
  debounced (handleInputChange value u) /\
  pending (handleInputChange value u) =
    (if is_empty value then [] else [(nextHandle u, value)]).
Proof.
  intros Hd. unfold handleInputChange.
  pose proof (debounced_cleared
                (u |> setInput value |> setError "" |> setShowDropdown true)) as Hc.
  assert (Hd' : debounced (u |> setInput value |> setError "" |> setShowDropdown true))
    by (apply (debounced_frame u); auto).
  specialize (Hc Hd').
  set (u1 := match validationTimeoutRef
                     (fields (u |> setInput value |> setError "" |> setShowDropdown true))
             with
             | Some h => clearTimeout h (u |> setInput value |> setError "" |> setShowDropdown true)
             | None => u |> setInput value |> setError "" |> setShowDropdown true
             end) in *.
  assert (Hn : nextHandle u1 = nextHandle u).
  { subst u1. simpl. now destruct (validationTimeoutRef (fields u)). }
  destruct (is_empty value).
  - split; [|simpl; exact Hc].
    unfold debounced. simpl. rewrite Hc. simpl.
    repeat split; constructor.
  - simpl. rewrite Hc, Hn. simpl. split; [|reflexivity].
    unfold debounced. simpl.
    split; [repeat constructor; intros []|].
    split; repeat constructor.
Qed.

Lemma debounced_clearInput u : debounced u -> pending (clearInput u) = [].
Proof.
  intros Hd. unfold clearInput.
  apply (debounced_cleared
           (u |> setInput "" |> setError "" |> setSelectedPeerUsername None
              |> setShowDropdown false |> onRecipientSelect "")).
  now apply (debounced_frame u).
Qed.

Lemma handlePeerSelect_frame k peer u :
  pending (handlePeerSelect k peer u) = pending u /\
  nextHandle (handlePeerSelect k peer u) = nextHandle u /\
  validationTimeoutRef (fields (handlePeerSelect k peer u)) =
    validationTimeoutRef (fields u) /\
  input (fields (handlePeerSelect k peer u)) = publicKey peer.
Proof.
  unfold handlePeerSelect.
  set (u0 := u |> setInput (publicKey peer) |> setSelectedPeerUsername _
               |> setShowDropdown false |> setError "").
  pose proof (validate_frame k (publicKey peer) u0) as (Hp & Hn & Hr & Hi).
  destruct (validateAndSelectAddress k (publicKey peer) u0) as [[] u1];
    simpl in *; rewrite ?Hp, ?Hn, ?Hr, ?Hi; repeat split.
Qed.

Lemma debounced_step e u : debounced u -> debounced (step e u).
Proof.
  intros Hd. destruct e as [value| |k peer|k h]; simpl.
  - now apply debounced_handleInputChange.
  - pose proof (debounced_clearInput u Hd) as Hp.
    unfold debounced. rewrite Hp. simpl. repeat split; constructor.
  - pose proof (handlePeerSelect_frame k peer u) as (Hp & Hn & Hr & _).
    now apply (debounced_frame u).
  - unfold fire.
    destruct (find (fun e => Nat.eqb (fst e) h) (pending u)) as [[h' value]|];
      [|exact Hd].
    pose proof (validate_frame k value (clearTimeout h u)) as (Hp & Hn & Hr & _).
    apply (debounced_frame (clearTimeout h u)); auto.
    destruct Hd as (Hnd & Hlt & Href).
    unfold debounced, clearTimeout. simpl.
    assert (Hsub : forall e, In e (filter (fun e => negb (Nat.eqb (fst e) h)) (pending u)) ->
                             In e (pending u))
      by (intros e He; apply filter_In in He; tauto).
    split; [|split].
    + clear Hlt Href Hsub.
      induction (pending u) as [|e es IH]; simpl; [constructor|].
      inversion Hnd as [|? ? Hnotin Hnd']; subst.
      destruct (negb (Nat.eqb (fst e) h)); simpl; auto.
      constructor; auto. intros Hin. apply Hnotin.
      apply in_map_iff in Hin. destruct Hin as (x & Hx & Hin).
      apply filter_In in Hin. apply in_map_iff. exists x. tauto.
    + rewrite Forall_forall in *. auto.
    + rewrite Forall_forall in *. auto.
Qed.

Lemma debounced_mounted : debounced mounted.
Proof. unfold debounced. simpl. repeat split; constructor. Qed.

Lemma debounced_run es : forall u, debounced u -> debounced (run es u).
Proof.
  induction es as [|e es IH]; intros u Hd; simpl; [exact Hd|].
  apply IH. now apply debounced_step.
Qed.

Lemma validation_outcome_lemma k value u :
  resolvedAddress (fields (snd (validateAndSelectAddress k value u))) =
    accepted k /\
  selections (snd (validateAndSelectAddress k value u)) =
    selections u ++ [match accepted k with Some a => a | None => "" end].
Proof.
  destruct k as [[[[] v]|] [[[|c s]|]|] [[]|] [[[|c' s']|]|] [[[[|c'' s'']|]|]|]];
    repeat split.
Qed.

(** X9.  A validation tells the parent exactly once what it accepts: the
    address a username resolved to (if non-empty) or the address that
    validated, and the empty string in every other case, a collaborator
    that throws included.  The result, the stored resolved address and
    the error message agree with it: [true], that address and no error,
    or [false], no address, no peer name and an error.  The validating
    flag is always off at the end. *)
Theorem validation_reports_what_it_accepts
    (k : Lookups) (value : string) (u : UI) :
  fst (validateAndSelectAddress k value u) =
    (match accepted k with Some _ => true | None => false end) /\
  resolvedAddress (fields (snd (validateAndSelectAddress k value u))) =
    accepted k /\
  selections (snd (validateAndSelectAddress k value u)) =
    selections u ++ [match accepted k with Some a => a | None => "" end] /\
  is_empty (error (fields (snd (validateAndSelectAddress k value u)))) =
    fst (validateAndSelectAddress k value u) /\
  isValidating (fields (snd (validateAndSelectAddress k value u))) = false /\
  (if fst (validateAndSelectAddress k value u) then True
   else selectedPeerUsername
          (fields (snd (validateAndSelectAddress k value u))) = None).
Proof.
  destruct k as [[[[] v]|] [[[|c s]|]|] [[]|] [[[|c' s']|]|] [[[[|c'' s'']|]|]|]];
    repeat split.
Qed.

(** X10.  The name look-ups that follow a valid address cannot fail a
    validation: whatever [reverseResolve] and [fetchProfile] answer or
    throw, the result and every cell but the displayed peer name are the
    same, and so is what the parent is told. *)
Theorem name_lookups_cannot_fail_validation
    (k : Lookups) (rr : Answer (option string))
    (fp : Answer (option (option string))) (value : string) (u : UI) :
  let k' := mkLookups (parseUserInput k) (resolveUsername k)
              (validateSolanaAddress k) rr fp in
  fst (validateAndSelectAddress k' value u) =
    fst (validateAndSelectAddress k value u) /\
  setSelectedPeerUsername None (snd (validateAndSelectAddress k' value u)) =
    setSelectedPeerUsername None (snd (validateAndSelectAddress k value u)).
Proof.
  destruct k as [[[[] v]|] [[[|c s]|]|] [[]|] [[[|c' s']|]|] [[[[|c'' s'']|]|]|]];
    destruct rr as [[[|c1 s1]|]|], fp as [[[[|c2 s2]|]|]|];
    split; reflexivity.
Qed.

(** X11.  Typing is debounced: whatever the user typed, cleared or
    selected before and whichever timeouts fired, at most one validation
    is pending; after a key stroke the pending validation is the one of
    the text just typed, or none if the field was emptied; and clearing
    the field leaves none. *)
Theorem at_most_one_validation_pending (es : list Event) (value : string) :
  List.length (pending (run es mounted)) <= 1 /\
  map snd (pending (handleInputChange value (run es mounted))) =
    (if is_empty value then [] else [value]) /\
  pending (clearInput (run es mounted)) = [].
Proof.
  pose proof (debounced_run es mounted debounced_mounted) as Hd.
  split; [now apply debounced_at_most_one|].
  split; [|now apply debounced_clearInput].
  destruct (debounced_handleInputChange value _ Hd) as [_ ->].
  now destruct (is_empty value).
Qed.

(** X12.  Selecting a peer from the list does not cancel the debounce
    timeout of the text typed before: it is still pending afterwards,
    and when it fires with an input that is not accepted, the parent is
    told the empty recipient and the resolved address is dropped, while
    the field still shows the key of the selected peer. *)
Theorem peer_selection_keeps_stale_validation
    (es : list Event) (value : string) (peer : Peer)
    (k_peer k_stale : Lookups) :
  is_empty value = false ->
  accepted k_stale = None ->
  let h := nextHandle (run es mounted) in
  let selected :=
    handlePeerSelect k_peer peer (handleInputChange value (run es mounted)) in
  pending selected = [(h, value)] /\
  input (fields (fire k_stale h selected)) = publicKey peer /\
  resolvedAddress (fields (fire k_stale h selected)) = None /\
  selections (fire k_stale h selected) = selections selected ++ [""] /\
  pending (fire k_stale h selected) = [].
Proof.
  intros Hvalue Hstale. cbv zeta.
  pose proof (debounced_run es mounted debounced_mounted) as Hd.
  destruct (debounced_handleInputChange value _ Hd) as [_ Hp].
  rewrite Hvalue in Hp.
  pose proof (handlePeerSelect_frame k_peer peer
                (handleInputChange value (run es mounted))) as (Hp' & _ & _ & Hi).
  rewrite Hp in Hp'.
  split; [exact Hp'|].
  unfold fire. rewrite Hp'. simpl. rewrite Nat.eqb_refl.
  pose proof (validate_frame k_stale value
                (clearTimeout (nextHandle (run es mounted))
                   (handlePeerSelect k_peer peer
                      (handleInputChange value (run es mounted)))))
    as (Hp2 & _ & _ & Hi2).
  pose proof (validation_outcome_lemma k_stale value
                (clearTimeout (nextHandle (run es mounted))
                   (handlePeerSelect k_peer peer
                      (handleInputChange value (run es mounted)))))
    as (Hr & Hs).
  rewrite Hstale in Hr, Hs.
  split; [now rewrite Hi2|].
  split; [exact Hr|].
  split; [exact Hs|].
  rewrite Hp2. simpl. rewrite Hp'. simpl. now rewrite Nat.eqb_refl.
Qed.

Lemma peer_selection_keeps_stale_validation_witness :
  is_empty "bo" = false /\
  accepted unknown_name = None /\
  pending (handlePeerSelect valid_address bob (handleInputChange "bo" mounted)) =
    [(1, "bo")] /\
  selections
    (fire unknown_name 1
       (handlePeerSelect valid_address bob (handleInputChange "bo" mounted))) =
    ["B0bAddr"; "B0bAddr"; ""].
Proof.
  split; [reflexivity|]. split; [reflexivity|].
  pose proof (peer_selection_keeps_stale_validation [] "bo" bob valid_address
                unknown_name eq_refl eq_refl) as H.
  cbv zeta in H.
  split; [exact (proj1 H) | exact (proj1 (proj2 (proj2 (proj2 H))))].
Defined.

End RecipientInputFacts.

(* ================================================================== *)
(** ** Properties of the active chat *)

Module AppFacts.
Import App.

Lemma find_other_spec me (ps : list string) :
  match find (fun p => negb (String.eqb p me)) ps with
  | Some r => In r ps /\ r <> me
  | None => Forall (eq me) ps
  end.
Proof.
  induction ps as [|p ps IH]; simpl; [constructor|].
  destruct (String.eqb p me) eqn:E; simpl.
  - apply String.eqb_eq in E. subst p.
    destruct (find _ ps); [tauto | now constructor].
  - apply String.eqb_neq in E. tauto.
Qed.

(** X13.  With a wallet connected, the details of an active direct chat
    never name the wallet's own key as recipient: the recipient is the
    first participant that differs from it.  When no participant
    differs (a chat of the wallet with itself, or without participants)
    the recipient is [undefined], the chat shows as
    "undefined...undefined" and as offline. *)
Theorem direct_chat_recipient_is_never_self
    (me : string) (activeChat : option string) (chats : list Chat)
    (peers : list Peer) (chat : Chat) :
  active_chat activeChat chats = Some chat ->
  type chat = direct ->
  exists d,
    getActiveChatDetails (Some me) activeChat chats peers = Gave (Some d) /\
    details_id d = id chat /\
    match recipientId d with
    | Some r => In r (participants chat) /\ r <> me
    | None =>
        Forall (eq me) (participants chat) /\
        details_name d = "undefined...undefined" /\
        details_isOnline d = false
    end.
Proof.
  unfold active_chat, getActiveChatDetails. intros Hfind Hdirect.
  destruct (truthy_string activeChat) as [active|]; [|discriminate].
  rewrite Hfind, Hdirect.
  unfold otherParticipant.
  destruct (participants chat) as [|p ps] eqn:Hps.
  - eexists. split; [reflexivity|]. simpl. repeat split. constructor.
  - pose proof (find_other_spec me (p :: ps)) as Hother.
    destruct (find (fun p0 => negb (String.eqb p0 me)) (p :: ps)) as [r|].
    + eexists. split; [reflexivity|]. simpl. tauto.
    + eexists. split; [reflexivity|]. simpl. tauto.
Qed.

Lemma direct_chat_recipient_is_never_self_witness :
  active_chat (Some "c-self") [with_bob; with_self] = Some with_self /\
  type with_self = direct /\
  exists d,
    getActiveChatDetails (Some "4lice") (Some "c-self") [with_bob; with_self] [] =
      Gave (Some d) /\
    details_id d = "c-self" /\
    match recipientId d with
    | Some r => In r (participants with_self) /\ r <> "4lice"
    | None =>
        Forall (eq "4lice") (participants with_self) /\
        details_name d = "undefined...undefined" /\
        details_isOnline d = false
    end.
Proof.
  split; [reflexivity|]. split; [reflexivity|].
  apply (direct_chat_recipient_is_never_self "4lice" (Some "c-self")
           [with_bob; with_self] [] with_self eq_refl eq_refl).
Defined.

(** X14.  [getActiveChatDetails] throws in exactly one situation: no
    wallet is connected while the active chat is a direct chat that has
    participants.  With a wallet connected, with no active chat, with an
    unknown chat id, or for a group chat it always returns. *)
Theorem details_throw_only_without_wallet
    (publicKey activeChat : option string) (chats : list Chat)
    (peers : list Peer) :
  match getActiveChatDetails publicKey activeChat chats peers with
  | Threw =>
      publicKey = None /\
      match active_chat activeChat chats with
      | Some chat => is_direct chat && has_participants chat = true
      | None => False
      end
  | Gave None => active_chat activeChat chats = None
  | Gave (Some d) =>
      match active_chat activeChat chats with
      | Some chat =>
          details_id d = id chat /\ details_type d = type chat /\
          (publicKey = None -> is_direct chat && has_participants chat = false)
      | None => False
      end
  end.
Proof.
  unfold getActiveChatDetails, active_chat, is_direct, has_participants,
    otherParticipant.
  destruct (truthy_string activeChat) as [active|]; [|reflexivity].
  destruct (find (fun c => String.eqb (id c) active) chats) as [chat|];
    [|reflexivity].
  destruct (type chat); [|simpl; auto].
  destruct (participants chat) as [|p ps]; [simpl; auto|].
  destruct publicKey as [me|]; simpl; auto.
  repeat split. discriminate.
Qed.

End AppFacts.
